(** * Malicious URL detector: the rule-based risk scorer and the model state

    A shallow embedding of [src/api/app.py]: the class [SVMModel]
    ([predict], [get_metrics], [update_metrics]) and the [/api/train]
    handler [train_model], followed by the properties the specification
    states about them.

    Conventions of the embedding
    - a Python [str] is the list of its code points ([len] counts code
      points, [in] is substring search);
    - a Python [int] is a [Z];
    - a Python [float] is a binary64 primitive float, with the operations
      of CPython written out where they are not IEEE primitives
      ([int * float], [min], [max], [round(x, ndigits)]);
    - a [dict] is an association list in insertion order, which is the
      order [.items()] iterates in;
    - an exception is the [Raise] case of [result];
    - the ambient state of the process (the [model] singleton, the random
      generator, the clock and the pickle file) is a record [World] that
      the stateful operations pass along;
    - [random.uniform(a, b)] is [a + (b - a) * random.random()], as the
      standard library computes it, over the 53-bit integers the
      generator delivers;
    - a write to a file that fails either fails to open the file, which
      is then untouched, or fails once the file is open, which leaves it
      truncated. *)

From Stdlib Require Import ZArith NArith List Bool Lia String Ascii.
From Stdlib Require Import Floats Permutation.
From Stdlib Require Uint63.
Import ListNotations.

Set Warnings "-inexact-float".

(** ** Strings *)

Module Str.

Definition char := N.
Definition str := list char.

(** A one-character literal of the source. *)
Definition chr (a : ascii) : char := N_of_ascii a.

(** A literal of the source, all of whose characters are ASCII. *)
Definition lit (s : string) : str := map N_of_ascii (list_ascii_of_string s).

(** [a == b] *)
Fixpoint eqb (a b : str) : bool :=
  match a, b with
  | [], [] => true
  | x :: xs, y :: ys => N.eqb x y && eqb xs ys
  | _, _ => false
  end.

(** [u.startswith(prefix)] *)
Fixpoint startswith (u prefix : str) {struct prefix} : bool :=
  match prefix, u with
  | [], _ => true
  | p :: ps, c :: cs => N.eqb c p && startswith cs ps
  | _ :: _, [] => false
  end.

(** [w in u]: [w] occurs in [u] as a substring. *)
Fixpoint contains (w u : str) : bool :=
  startswith u w ||
  match u with
  | [] => false
  | _ :: cs => contains w cs
  end.

(** [u.count(c)] for a one-character pattern [c]. *)
Fixpoint count (u : str) (c : char) : Z :=
  match u with
  | [] => 0
  | x :: xs => (if N.eqb x c then 1 else 0) + count xs c
  end.

(** [len(u)] *)
Definition len (u : str) : Z := Z.of_nat (List.length u).

(** [any(f(x) for x in l)] *)
Definition any {A} (f : A -> bool) (l : list A) : bool := existsb f l.

(** Characters that [str.lower] leaves where they are, whatever
    surrounds them: the ASCII characters other than [A]..[Z]. *)
Definition plain (c : char) : Prop := (c < 65 \/ 90 < c < 128)%N.

(** The restriction of [str.lower] to ASCII: [A]..[Z] become [a]..[z]
    and every other character is kept.  It is [str.lower] itself on
    every string of ASCII characters. *)
Definition lower_ascii_char (c : char) : char :=
  if (65 <=? c)%N && (c <=? 90)%N then (c + 32)%N else c.

Definition lower_ascii (u : str) : str := map lower_ascii_char u.

(** What the properties below rely on about [str.lower]: an
    occurrence of a word of plain characters is still there, as it
    was, in the lower-cased string. *)
Definition keeps_plain (lower : str -> str) : Prop :=
  forall p w s, Forall plain w ->
    exists p' s', lower (p ++ w ++ s) = p' ++ w ++ s'.

End Str.

Import Str.

(** ** Exceptions *)

Inductive exn : Type :=
| OverflowError
| OSError
| HTTPException (status_code : Z).

Inductive result (A : Type) : Type :=
| Ok (a : A)
| Raise (e : exn).

Arguments Ok {A} a.
Arguments Raise {A} e.

Definition bind {A B} (r : result A) (k : A -> result B) : result B :=
  match r with
  | Ok a => k a
  | Raise e => Raise e
  end.

Notation "x <- c ;; k" := (bind c (fun x => k))
  (at level 61, c at next level, right associativity).

(** ** Floats *)

Module PyFloat.

Open Scope float_scope.

(** The double nearest to the integer [z]; infinite when [z] is out of
    the range of doubles. *)
Definition Z2SF (z : Z) : spec_float := binary_normalize prec emax z 0 false.

(** [float(z)], the conversion [int * float] starts with: correctly
    rounded, [OverflowError] when [z] is too large for a double. *)
Definition float_of_int (z : Z) : result float :=
  match Z2SF z with
  | S754_infinity _ => Raise OverflowError
  | f => Ok (SF2Prim f)
  end.

(** [z * x] for an [int] [z] and a [float] [x]. *)
Definition int_mul_float (z : Z) (x : float) : result float :=
  fz <- float_of_int z ;;
  Ok (fz * x).

(** [max(a, b)] and [min(a, b)] of two arguments: the first one is kept
    unless the second is strictly beyond it. *)
Definition py_max (a b : float) : float := if a <? b then b else a.
Definition py_min (a b : float) : float := if b <? a then b else a.

(** The integer nearest to [a * 2^e], ties to even. *)
Definition round_half_even (a e : Z) : Z :=
  if (0 <=? e)%Z then (a * 2 ^ e)%Z
  else
    let d := (2 ^ (- e))%Z in
    let q := (a / d)%Z in
    let r := (a mod d)%Z in
    match (2 * r ?= d)%Z with
    | Lt => q
    | Gt => (q + 1)%Z
    | Eq => if Z.even q then q else (q + 1)%Z
    end.

(** [round(x, ndigits)] for [0 <= ndigits]: the exact value of [x] is
    rounded, ties to even, to [ndigits] decimals, and the double
    nearest to that decimal is returned.  Zeros, infinities and NaN
    round to themselves. *)
Definition py_round (x : float) (ndigits : Z) : float :=
  match Prim2SF x with
  | S754_finite s m e =>
      let p := (10 ^ ndigits)%Z in
      match round_half_even (Zpos m * p) e, p with
      | Zpos n, Zpos d =>
          SF2Prim (SFdiv prec emax (S754_finite s n 0) (S754_finite false d 0))
      | _, _ => if s then neg_zero else zero
      end
  | _ => x
  end.

(** The double that the decimal [n / 1000] denotes. *)
Definition of_milli (n : Z) : float :=
  SF2Prim (SFdiv prec emax (Z2SF n) (Z2SF 1000)).

End PyFloat.

Import PyFloat.

Open Scope Z_scope.

(** ** The risk scorer: [SVMModel.predict] *)

(** The dictionary [predict] returns, one field per key. *)
Record Classification : Type := {
  url : str;
  prediction : str;
  confidence : float;
  is_malicious : bool;
  probability_malicious : float;
  probability_legitimate : float;
  features_count : Z;
  recommendation : str;
  risk_level : str;
  risk_score : Z
}.

Definition suspicious_words : list str :=
  [lit "phishing"; lit "malware"; lit "malicious"; lit "hack"].

Definition trusted_words : list str :=
  [lit "example.com"; lit "google.com"; lit "github.com"; lit "wikipedia.org"].

Definition MALICIOSA : str := lit "MALICIOSA".
Definition LEGITIMA : str := lit "LEG" ++ [205%N] ++ lit "TIMA".
Definition ALTO : str := lit "ALTO".
Definition MEDIO : str := lit "MEDIO".
Definition BAJO : str := lit "BAJO".

Definition recommendation_malicious : str :=
  lit "URL sospechosa detectada - Evite compartir informaci" ++ [243%N]
  ++ lit "n personal".
Definition recommendation_safe : str :=
  lit "URL verificada como segura - Puede proceder con confianza".

Section Scorer.

(** [str.lower], the case mapping of the Unicode database the
    interpreter carries. *)
Variable lower : str -> str.

(** The accumulation of [score] over the seven [if] statements, in the
    order of the source. *)
Definition predict_score (url : str) : Z :=
  let url_lower := lower url in
  let score := 0 in
  let score :=
    if any (fun word => contains word url_lower) suspicious_words
    then score + 3 else score in
  let score :=
    if any (fun word => contains word url_lower) trusted_words
    then score - 2 else score in
  let score :=
    if negb (startswith url (lit "https://")) then score + 1 else score in
  let score := if count url (chr ".") >? 3 then score + 1 else score in
  let score := if count url (chr "/") >? 5 then score + 1 else score in
  let score := if contains (lit "@") url then score + 2 else score in
  let score := if len url >? 100 then score + 1 else score in
  score.

(** [min(0.98, max(0.6, 0.7 + (score * 0.05)))] *)
Definition predict_confidence (score : Z) : result float :=
  scaled <- int_mul_float score 0.05 ;;
  let base_confidence := (0.7 + scaled)%float in
  Ok (py_min 0.98 (py_max 0.6 base_confidence)).

Definition predict (url : str) : result Classification :=
  let score := predict_score url in
  let is_malicious := score >? 1 in
  confidence <- predict_confidence score ;;
  Ok {| url := url;
        prediction := if is_malicious then MALICIOSA else LEGITIMA;
        confidence := py_round confidence 3;
        is_malicious := is_malicious;
        probability_malicious :=
          py_round (if is_malicious then confidence
                    else (1 - confidence)%float) 3;
        probability_legitimate :=
          py_round (if is_malicious then (1 - confidence)%float
                    else confidence) 3;
        features_count := 8;
        recommendation :=
          if is_malicious then recommendation_malicious
          else recommendation_safe;
        risk_level :=
          if score >? 3 then ALTO else if score >? 1 then MEDIO else BAJO;
        risk_score := score |}.

End Scorer.

(** *** The rule table of the specification

    The seven rules as (condition, weight) pairs, each condition a
    function of the URL alone, and the sum of the weights of the rules
    that fire, taken in the order of a given list. *)

Definition rule : Type := (str -> bool) * Z.

Definition rule1 (lower : str -> str) (u : str) : bool :=
  any (fun w => contains w (lower u)) suspicious_words.
Definition rule2 (lower : str -> str) (u : str) : bool :=
  any (fun w => contains w (lower u)) trusted_words.
Definition rule3 (u : str) : bool := negb (startswith u (lit "https://")).
Definition rule4 (u : str) : bool := count u (chr ".") >? 3.
Definition rule5 (u : str) : bool := count u (chr "/") >? 5.
Definition rule6 (u : str) : bool := contains (lit "@") u.
Definition rule7 (u : str) : bool := len u >? 100.

Definition rule_table (lower : str -> str) : list rule :=
  [ (rule1 lower, 3); (rule2 lower, -2); (rule3, 1); (rule4, 1);
    (rule5, 1); (rule6, 2); (rule7, 1) ].

Definition contribution (u : str) (r : rule) : Z :=
  if fst r u then snd r else 0.

Definition apply_rules (rules : list rule) (u : str) : Z :=
  fold_left (fun score r => score + contribution u r) rules 0.

(** The exact confidence of the specification, in thousandths:
    [clamp(0.7 + score * 0.05, 0.6, 0.98)] over the rationals. *)
Definition confidence_milli (score : Z) : Z :=
  Z.min 980 (Z.max 600 (700 + score * 50)).

(** ** The model state: [SVMModel] and [train_model] *)

(** A metrics dictionary, in insertion order. *)
Definition Metrics : Type := list (str * float).

Fixpoint dict_get {V} (key : str) (d : list (str * V)) : option V :=
  match d with
  | [] => None
  | (k, v) :: rest => if Str.eqb k key then Some v else dict_get key rest
  end.

Record SVMModel : Type := {
  is_trained : bool;
  n_features : Z;
  kernel : str;
  metrics : Metrics
}.

Definition mk_metrics (accuracy precision recall f1_score : float) : Metrics :=
  [ (lit "accuracy", accuracy); (lit "precision", precision);
    (lit "recall", recall); (lit "f1_score", f1_score) ].

(** [SVMModel.__init__] *)
Definition init : SVMModel :=
  {| is_trained := true;
     n_features := 20;
     kernel := lit "rbf";
     metrics := mk_metrics 0.92 0.89 0.91 0.90 |}.

Definition base_metrics : list (str * Metrics) :=
  [ (lit "rbf", mk_metrics 0.92 0.89 0.91 0.90);
    (lit "linear", mk_metrics 0.88 0.85 0.87 0.86);
    (lit "poly", mk_metrics 0.90 0.87 0.89 0.88);
    (lit "sigmoid", mk_metrics 0.85 0.82 0.84 0.83) ].

(** The kernel names of [base_metrics]. *)
Definition kernels : list str :=
  [lit "rbf"; lit "linear"; lit "poly"; lit "sigmoid"].

(** The dictionary [joblib.dump] writes to [svm_model.pkl]. *)
Record Saved : Type := {
  saved_kernel : str;
  saved_C : float;
  saved_metrics : Metrics;
  saved_timestamp : float
}.

(** How a [joblib.dump] that raises leaves the file: it could not be
    opened for writing and is untouched, or it was opened (mode ["wb"]
    truncates it) and the pickle did not get written in full. *)
Inductive dump_failure : Type :=
| DumpOpenFails
| DumpWriteFails.

(** The process around the handlers: the [model] singleton; the 53-bit
    integers behind the successive results of [random.random()] and how
    many were taken; the clock [time.time()] reads; the record
    [svm_model.pkl] holds, if it holds one; whether the file is there
    without holding a record (empty or partial: [joblib.load] raises on
    it); whether [joblib.dump] succeeds, and how it fails when it does
    not. *)
Record World : Type := {
  model : SVMModel;
  random_draws : nat -> Z;
  drawn : nat;
  clock : float;
  pkl : option Saved;
  pkl_damaged : bool;
  pkl_writable : bool;
  pkl_failure : dump_failure
}.

Definition set_model (m : SVMModel) (w : World) : World :=
  {| model := m; random_draws := random_draws w; drawn := drawn w;
     clock := clock w; pkl := pkl w; pkl_damaged := pkl_damaged w;
     pkl_writable := pkl_writable w; pkl_failure := pkl_failure w |}.

(** The file [svm_model.pkl] becomes [file], damaged or not. *)
Definition set_pkl (file : option Saved) (damaged : bool) (w : World) : World :=
  {| model := model w; random_draws := random_draws w; drawn := drawn w;
     clock := clock w; pkl := file; pkl_damaged := damaged;
     pkl_writable := pkl_writable w; pkl_failure := pkl_failure w |}.

Definition set_metrics (m : Metrics) (w : World) : World :=
  set_model {| is_trained := is_trained (model w);
               n_features := n_features (model w);
               kernel := kernel (model w);
               metrics := m |} w.

Definition set_kernel (k : str) (w : World) : World :=
  set_model {| is_trained := is_trained (model w);
               n_features := n_features (model w);
               kernel := k;
               metrics := metrics (model w) |} w.

(** The float [random.random()] makes of the 53-bit integer [k] it
    draws: [k * 2^-53], in [[0, 1)]. *)
Definition random_value (k : Z) : float :=
  (of_uint63 (Uint63.of_Z (k mod 2 ^ 53)) * 0x1p-53)%float.

(** [random.random()]: the next draw. *)
Definition random_random (w : World) : float * World :=
  (random_value (random_draws w (drawn w)),
   {| model := model w; random_draws := random_draws w;
      drawn := S (drawn w); clock := clock w; pkl := pkl w;
      pkl_damaged := pkl_damaged w; pkl_writable := pkl_writable w;
      pkl_failure := pkl_failure w |}).

(** [random.uniform(a, b)]: [a + (b - a) * self.random()]. *)
Definition random_uniform (a b : float) (w : World) : float * World :=
  let (r, w') := random_random w in
  ((a + (b - a) * r)%float, w').

(** What the call [random.uniform(-0.02, 0.02)] returns when it takes
    the draw number [i] of the process. *)
Definition uniform_draws (w : World) (i : nat) : float :=
  (-0.02 + (0.02 - -0.02) * random_value (random_draws w i))%float.

(** [time.sleep(secs)]: the clock moves on by [secs]. *)
Definition time_sleep (secs : float) (w : World) : World :=
  {| model := model w; random_draws := random_draws w; drawn := drawn w;
     clock := (clock w + secs)%float; pkl := pkl w;
     pkl_damaged := pkl_damaged w; pkl_writable := pkl_writable w;
     pkl_failure := pkl_failure w |}.

(** [joblib.dump(d, model_path)]: the file holds [d] afterwards, or the
    call raises and leaves the file untouched (it could not be opened) or
    damaged (it was opened and truncated, whatever it held). *)
Definition joblib_dump (d : Saved) (w : World) : result unit * World :=
  if pkl_writable w then (Ok tt, set_pkl (Some d) false w)
  else
    match pkl_failure w with
    | DumpOpenFails => (Raise OSError, w)
    | DumpWriteFails => (Raise OSError, set_pkl None true w)
    end.

(** [SVMModel.get_metrics] *)
Definition get_metrics (w : World) : Metrics := metrics (model w).

(** [{k: v + random.uniform(-0.02, 0.02) for k, v in items}]: one draw
    per item, in the order of the items. *)
Fixpoint jittered (items : Metrics) (w : World) : Metrics * World :=
  match items with
  | [] => ([], w)
  | (k, v) :: rest =>
      let (j, w1) := random_uniform (-0.02) 0.02 w in
      let (rest', w2) := jittered rest w1 in
      ((k, (v + j)%float) :: rest', w2)
  end.

(** [{k: min(0.99, max(0.7, v)) for k, v in items}] *)
Definition clamped (items : Metrics) : Metrics :=
  map (fun kv => (fst kv, py_min 0.99 (py_max 0.7 (snd kv)))) items.

(** [SVMModel.update_metrics] *)
Definition update_metrics (kernel : str) (w : World) : Metrics * World :=
  let w' :=
    match dict_get kernel base_metrics with
    | Some base =>
        let (m, w1) := jittered base w in
        let w2 := set_metrics m w1 in
        set_metrics (clamped (metrics (model w2))) w2
    | None => w
    end in
  (metrics (model w'), w').

(** The dictionary [train_model] answers with. *)
Record TrainResponse : Type := {
  message : str;
  resp_kernel : str;
  resp_C : float;
  resp_metrics : Metrics
}.

(** [train_model], the handler of [POST /api/train]: any exception of the
    body is turned into [HTTPException(status_code=500)]. *)
Definition train_model (kernel : str) (C : float) (w : World)
  : result TrainResponse * World :=
  let w := time_sleep 1.5 w in
  let (metrics, w) := update_metrics kernel w in
  let w := set_kernel kernel w in
  let d := {| saved_kernel := kernel; saved_C := C;
              saved_metrics := metrics; saved_timestamp := clock w |} in
  match joblib_dump d w with
  | (Ok _, w) =>
      (Ok {| message := lit "Modelo entrenado exitosamente";
             resp_kernel := kernel; resp_C := C; resp_metrics := metrics |},
       w)
  | (Raise _, w) => (Raise (HTTPException 500), w)
  end.

(** A metric value within [[0.7, 0.99]]. *)
Definition in_metric_range (x : float) : Prop :=
  (0.7 <=? x)%float = true /\ (x <=? 0.99)%float = true.

(** The scenario of the specification's testable properties. *)
Definition scenario_url : str :=
  lit "http://example.com@evil-phishing.ru/a/b/c/d/e/f".

(** A URL that names a trusted domain and carries a suspicious word. *)
Definition trusted_phishing_url : str := lit "http://google.com/phishing".

(** A URL that carries a suspicious word and names no trusted domain. *)
Definition phishing_url : str := lit "http://evil-phishing.ru/login".

(** A kernel name [base_metrics] does not have. *)
Definition unknown_kernel : str := lit "unknown-kernel".

(** The contract of [str.lower] on ASCII input. *)
Definition agrees_on_ascii (lower : str -> str) : Prop :=
  forall u, Forall (fun c => (c < 128)%N) u -> lower u = lower_ascii u.

(** The clamp of [update_metrics]. *)
Definition clamp_metric (v : float) : float := py_min 0.99 (py_max 0.7 v).

(** A process to run the handlers in: the model as constructed, draws
    that alternate between the two ends of the generator's range. *)
Definition demo_world : World :=
  {| model := init;
     random_draws := fun n => if Nat.even n then 2 ^ 53 - 1 else 0;
     drawn := 0;
     clock := 1700000000%float;
     pkl := None;
     pkl_damaged := false;
     pkl_writable := true;
     pkl_failure := DumpOpenFails |}.

(** The same process when the file cannot be written: the dump fails
    once the file is open. *)
Definition read_only_world : World :=
  {| model := init;
     random_draws := random_draws demo_world;
     drawn := 0;
     clock := clock demo_world;
     pkl := None;
     pkl_damaged := false;
     pkl_writable := false;
     pkl_failure := DumpWriteFails |}.

(** What [predict] derives from a score between -10 and 10: the
    confidence before rounding, the three rounded outputs as the decimals
    they denote, and the bounds. *)
Definition confidence_facts (s : Z) : Prop :=
  exists raw,
    predict_confidence s = Ok raw /\
    py_round raw 3 = of_milli (confidence_milli s) /\
    py_round (1 - raw)%float 3 = of_milli (1000 - confidence_milli s) /\
    (0.6 <=? raw)%float = true /\
    (raw <=? 0.98)%float = true /\
    (0.6 <=? py_round raw 3)%float = true /\
    (py_round raw 3 <=? 0.98)%float = true /\
    (py_round raw 3 + py_round (1 - raw) 3)%float = 1%float /\
    (py_round (1 - raw) 3 + py_round raw 3)%float = 1%float /\
    (abs (py_round raw 3 + py_round (1 - raw) 3 - 1) <=? 0.001)%float = true /\
    (abs (py_round (1 - raw) 3 + py_round raw 3 - 1) <=? 0.001)%float = true.

(** The confidence before and after rounding never decreases when the
    score grows, checked on every pair of scores between -10 and 10. *)
Definition monotone_at (s1 s2 : Z) : bool :=
  match predict_confidence s1, predict_confidence s2 with
  | Ok r1, Ok r2 => ((r1 <=? r2) && (py_round r1 3 <=? py_round r2 3))%float
  | _, _ => false
  end.

Definition monotone_from (s1 : Z) : bool :=
  forallb (fun s2 => if s1 <=? s2 then monotone_at s1 s2 else true)
          (map (fun k => -10 + Z.of_nat k) (seq 0 21)).

(** ** The other handlers and [SVMModel.load_model] *)

(** [u.endswith(suffix)] *)
Definition endswith (u suffix : str) : bool := startswith (rev u) (rev suffix).

(** [predict], the handler of [POST /api/predict]: an exception of
    [model.predict] is turned into [HTTPException(status_code=400)]. *)
Definition api_predict (lower : str -> str) (url : str)
  : result Classification :=
  match predict lower url with
  | Ok result => Ok result
  | Raise _ => Raise (HTTPException 400)
  end.

(** What [load_model] finds at [model_path]: no file, a file that
    [joblib.load] or the test ["metrics" in loaded] raises on, an object
    without the key ["metrics"], or one that has it. *)
Inductive loaded : Type :=
| NotFound
| LoadFails
| LoadedWithout
| LoadedWith (m : Metrics).

(** The file of a process is absent, damaged, or what [train_model]
    wrote. *)
Definition joblib_load (w : World) : loaded :=
  match pkl w with
  | None => if pkl_damaged w then LoadFails else NotFound
  | Some d => LoadedWith (saved_metrics d)
  end.

(** The body of [SVMModel.load_model], by what it finds. *)
Definition load_model_from (l : loaded) (w : World) : bool * World :=
  match l with
  | LoadedWith m => (true, set_metrics m w)
  | LoadedWithout => (true, w)
  | LoadFails => (true, w)
  | NotFound => (true, w)
  end.

(** [SVMModel.load_model] *)
Definition load_model (w : World) : bool * World :=
  load_model_from (joblib_load w) w.

(** [startup_event] *)
Definition startup_event (w : World) : World := snd (load_model w).

(** A new process over the files of an old one: the module builds
    [model = SVMModel()] and the startup event loads the file. *)
Definition restart (w : World) : World := startup_event (set_model init w).

(** The dictionary of [GET /api/model-info]. *)
Record ModelInfo : Type := {
  info_is_trained : bool;
  info_n_features : Z;
  info_model_type : str;
  info_kernel : str;
  info_metrics : Metrics
}.

(** [get_model_info] *)
Definition get_model_info (w : World) : ModelInfo :=
  let metrics := get_metrics w in
  {| info_is_trained := is_trained (model w);
     info_n_features := n_features (model w);
     info_model_type := lit "Support Vector Machine";
     info_kernel := kernel (model w);
     info_metrics := metrics |}.

(** The dictionary of [GET /health]. *)
Record Health : Type := {
  health_status : str;
  health_service : str;
  health_model_loaded : bool;
  health_metrics : Metrics
}.

(** [health] *)
Definition health (w : World) : Health :=
  {| health_status := lit "healthy";
     health_service := lit "SVM Detector";
     health_model_loaded := is_trained (model w);
     health_metrics := get_metrics w |}.

(** The keys [create_metrics_chart] reads, in the order of its bars. *)
Definition essential_metrics : list str :=
  [lit "accuracy"; lit "precision"; lit "recall"; lit "f1_score"].

(** A list built from dictionary subscripts: the list, or the
    [KeyError] of the first key that is missing. *)
Inductive subscripted (A : Type) : Type :=
| Found (a : A)
| KeyError (key : str).

Arguments Found {A} a.
Arguments KeyError {A} key.

(** [[metrics[k] * 100 for k in labels]], the heights of the bars of
    [create_metrics_chart]. *)
Fixpoint chart_values (labels : list str) (metrics : Metrics)
  : subscripted (list float) :=
  match labels with
  | [] => Found []
  | k :: rest =>
      match dict_get k metrics with
      | None => KeyError k
      | Some v =>
          match chart_values rest metrics with
          | Found vs => Found ((v * 100)%float :: vs)
          | KeyError k' => KeyError k'
          end
      end
  end.

(** How a write that raises leaves the file: it could not be opened and
    is untouched, or it was opened (mode ["wb"] truncates it) and holds
    the [written] first bytes of what was to be written. *)
Inductive write_failure : Type :=
| OpenFails
| WriteFails (written : nat).

(** The upload directory as [upload_dataset] sees it: the content of
    [dataset.csv], whether writing it succeeds, and how it fails when it
    does not. *)
Record Files : Type := {
  dataset : option (list Byte.byte);
  dataset_writable : bool;
  dataset_failure : write_failure
}.

(** The dictionary [upload_dataset] answers with. *)
Record UploadResponse : Type := {
  upload_message : str;
  upload_filename : str;
  upload_size : Z
}.

(** [upload_dataset], the handler of [POST /api/upload-dataset]: the
    [HTTPException(status_code=400)] of the file-name check is raised
    inside the [try], whose [except Exception] turns every exception
    into [HTTPException(status_code=500)]. *)
Definition upload_dataset (filename : str) (content : list Byte.byte)
  (fs : Files) : result UploadResponse * Files :=
  let body :=
    if negb (endswith filename (lit ".csv")) then
      (Raise (HTTPException 400), fs)
    else if dataset_writable fs then
      (Ok {| upload_message := lit "Dataset cargado exitosamente";
             upload_filename := filename;
             upload_size := Z.of_nat (List.length content) |},
       {| dataset := Some content; dataset_writable := dataset_writable fs;
          dataset_failure := dataset_failure fs |})
    else
      match dataset_failure fs with
      | OpenFails => (Raise OSError, fs)
      | WriteFails written =>
          (Raise OSError,
           {| dataset := Some (firstn written content);
              dataset_writable := dataset_writable fs;
              dataset_failure := dataset_failure fs |})
      end in
  match body with
  | (Ok response, fs') => (Ok response, fs')
  | (Raise _, fs') => (Raise (HTTPException 500), fs')
  end.

(** *** The states a process goes through *)

(** Metrics with the four keys of the chart, each value within
    [[0.7, 0.99]]. *)
Definition metrics_ok (m : Metrics) : Prop :=
  map fst m = essential_metrics /\
  Forall (fun kv => in_metric_range (snd kv)) m.

(** The model as the handlers expect it, in memory and on file. *)
Definition state_ok (w : World) : Prop :=
  is_trained (model w) = true /\
  n_features (model w) = 20 /\
  metrics_ok (metrics (model w)) /\
  match pkl w with
  | Some d => metrics_ok (saved_metrics d)
  | None => True
  end.

(** One step of a process: a call of [train_model], a restart, or a
    change of what the handlers only read (the clock, the draws to come,
    whether the file can be written). *)
Inductive step : World -> World -> Prop :=
| step_train (k : str) (C : float) (w : World) :
    step w (snd (train_model k C w))
| step_restart (w : World) :
    step w (restart w)
| step_env (w w' : World) :
    model w' = model w -> pkl w' = pkl w -> step w w'.

Inductive reachable (w0 : World) : World -> Prop :=
| reach_start : reachable w0 w0
| reach_step (w w' : World) : reachable w0 w -> step w w' -> reachable w0 w'.

(** *** The probabilities of a score *)

(** [probability_malicious] and [probability_legitimate] as [predict]
    derives them from a score. *)
Definition probabilities_at (s : Z) : option (float * float) :=
  match predict_confidence s with
  | Ok raw =>
      let is_malicious := s >? 1 in
      Some (py_round (if is_malicious then raw else (1 - raw)%float) 3,
            py_round (if is_malicious then (1 - raw)%float else raw) 3)
  | Raise _ => None
  end.

(** At a malicious score the probability of malice is at least 0.8, at
    any other it is at most 0.4. *)
Definition gap_at (s : Z) : bool :=
  match probabilities_at s with
  | Some (pm, pl) =>
      if s >? 1 then ((0.8 <=? pm) && (pl <=? 0.2))%float
      else ((pm <=? 0.4) && (0.6 <=? pl))%float
  | None => false
  end.

(** Between two scores that are not malicious, the higher one has the
    lower probability of malice. *)
Definition falls_at (s1 s2 : Z) : bool :=
  match probabilities_at s1, probabilities_at s2 with
  | Some (pm1, _), Some (pm2, _) => (pm2 <=? pm1)%float
  | _, _ => false
  end.

Definition falls_from (s1 : Z) : bool :=
  forallb (fun s2 => if (s1 <=? s2) && (s2 <=? 1) then falls_at s1 s2 else true)
          (map (fun k => -2 + Z.of_nat k) (seq 0 12)).

(** URLs for the examples: a trusted domain over https, and a bare
    http URL. *)
Definition trusted_url : str := lit "https://google.com".
Definition plain_http_url : str := lit "http://intranet/login".
Definition clean_url : str := lit "https://intranet.test/login".
Definition trusted_https_phishing_url : str :=
  lit "https://github.com/phishing".

(** *** Bounds on rounded results *)

(** The exponent of the floats of a magnitude, and the number of bits of
    a mantissa. *)
Abbreviation fexp64 := (SpecFloat.fexp prec emax).
Abbreviation digits m := (Zpos (digits2_pos m)).

(** The float [F] has sign [s] and magnitude at most [mc * 2^ec], on an
    exponent at most [ec]. *)
Definition below (s : bool) (mc : positive) (ec : Z) (F : spec_float) : Prop :=
  match F with
  | S754_zero s' => s' = s
  | S754_finite s' m e =>
      s' = s /\ e <= ec /\ Zpos m <= Zpos mc * 2 ^ (ec - e)
  | _ => False
  end.

(** The mantissa of the doubles 0.02 (exponent -58) and 0.04 (exponent
    -57). *)
Definition jitter_mantissa : positive := 5764607523034235.

(** * Properties *)

(** Splits a conjunction into its parts, and nothing else. *)
Ltac split_all := repeat match goal with |- _ /\ _ => split end.

(** ** Strings *)

Lemma startswith_iff (w u : str) :
  startswith u w = true <-> exists s, u = w ++ s.
Proof.
  revert u. induction w as [|p ps IH]; intros u; simpl.
  - split; [intros _; now exists u | reflexivity].
  - destruct u as [|c cs].
    + split; [discriminate | intros [s Hs]; discriminate].
    + rewrite andb_true_iff, N.eqb_eq, IH. split.
      * intros [-> [s ->]]. now exists s.
      * intros [s Hs]. injection Hs as -> ->. split; [reflexivity | now exists s].
Qed.

Lemma contains_cons (w : str) (c : char) (cs : str) :
  contains w (c :: cs) = startswith (c :: cs) w || contains w cs.
Proof. reflexivity. Qed.

Lemma contains_nil (w : str) : contains w [] = startswith [] w.
Proof. simpl. apply orb_false_r. Qed.

Lemma contains_infix (w p s : str) : contains w (p ++ w ++ s) = true.
Proof.
  induction p as [|c p IH].
  - simpl app. destruct (w ++ s) as [|x xs] eqn:E.
    + rewrite contains_nil. apply startswith_iff. exists s. now rewrite E.
    + rewrite contains_cons, <- E.
      apply orb_true_iff. left. apply startswith_iff. now exists s.
  - simpl app. rewrite contains_cons, IH. apply orb_true_r.
Qed.

Lemma contains_iff (w u : str) :
  contains w u = true <-> exists p s, u = p ++ w ++ s.
Proof.
  split.
  - induction u as [|c cs IH].
    + rewrite contains_nil. intros H. apply startswith_iff in H as [s Hs].
      exists [], s. exact Hs.
    + rewrite contains_cons. intros H. apply orb_true_iff in H as [H|H].
      * apply startswith_iff in H as [s Hs]. exists [], s. exact Hs.
      * destruct (IH H) as (p & s & ->). now exists (c :: p), s.
  - intros (p & s & ->). apply contains_infix.
Qed.

Lemma any_contains (words : list str) (w u : str) :
  In w words -> contains w u = true ->
  any (fun word => contains word u) words = true.
Proof.
  intros Hin Hc. apply existsb_exists. now exists w.
Qed.

Lemma lower_ascii_keeps_plain : keeps_plain lower_ascii.
Proof.
  intros p w s Hw. exists (lower_ascii p), (lower_ascii s).
  unfold lower_ascii. rewrite !map_app. f_equal. f_equal.
  induction Hw as [|c w Hc _ IH]; [reflexivity|].
  simpl. rewrite IH. f_equal.
  unfold lower_ascii_char, plain in *.
  destruct (65 <=? c)%N eqn:E1, (c <=? 90)%N eqn:E2; simpl; try reflexivity.
  apply N.leb_le in E1, E2. lia.
Qed.

Lemma lower_ascii_agrees : agrees_on_ascii lower_ascii.
Proof. intros u _. reflexivity. Qed.

(** A word of a lower-case literal survives lower-casing. *)
Lemma contains_lower (lower : str -> str) (w u : str) :
  keeps_plain lower -> Forall plain w ->
  contains w u = true -> contains w (lower u) = true.
Proof.
  intros Hl Hw Hc. apply contains_iff in Hc as (p & s & ->).
  destruct (Hl p w s Hw) as (p' & s' & ->). apply contains_infix.
Qed.

(** ** The score *)

Lemma fold_left_contribution (u : str) (rules : list rule) (acc : Z) :
  fold_left (fun score r => score + contribution u r) rules acc
  = acc + fold_right (fun r total => contribution u r + total) 0 rules.
Proof.
  revert acc. induction rules as [|r rules IH]; intros acc; simpl.
  - lia.
  - rewrite IH. lia.
Qed.

Lemma apply_rules_permutation (u : str) (rs rs' : list rule) :
  Permutation rs rs' -> apply_rules rs u = apply_rules rs' u.
Proof.
  unfold apply_rules. rewrite !fold_left_contribution.
  induction 1; simpl; lia.
Qed.

Lemma predict_score_rules (lower : str -> str) (u : str) :
  predict_score lower u = apply_rules (rule_table lower) u.
Proof.
  unfold apply_rules, rule_table, contribution, predict_score.
  cbn [fold_left fst snd].
  unfold rule1, rule2, rule3, rule4, rule5, rule6, rule7.
  repeat match goal with |- context [if ?b then _ else _] =>
    destruct b end; lia.
Qed.

Lemma score_as_sum (lower : str -> str) (u : str) :
  predict_score lower u
  = (if rule1 lower u then 3 else 0) + (if rule2 lower u then -2 else 0)
    + (if rule3 u then 1 else 0) + (if rule4 u then 1 else 0)
    + (if rule5 u then 1 else 0) + (if rule6 u then 2 else 0)
    + (if rule7 u then 1 else 0).
Proof.
  rewrite predict_score_rules.
  unfold apply_rules, rule_table, contribution. cbn [fold_left fst snd]. lia.
Qed.

Lemma predict_score_range (lower : str -> str) (u : str) :
  -2 <= predict_score lower u <= 9.
Proof.
  unfold predict_score.
  repeat match goal with |- context [if ?b then _ else _] =>
    destruct b end; lia.
Qed.

(** ** Floats *)

(** A property of every integer of an interval follows from its
    instances, one per integer. *)
Lemma interval_cases (P : Z -> Prop) (lo : Z) (n : nat) :
  Forall P (map (fun k => lo + Z.of_nat k) (seq 0 n)) ->
  forall z, lo <= z < lo + Z.of_nat n -> P z.
Proof.
  intros HP z Hz. rewrite Forall_forall in HP.
  replace z with (lo + Z.of_nat (Z.to_nat (z - lo))) by lia.
  apply HP, in_map_iff. exists (Z.to_nat (z - lo)). split; [reflexivity|].
  apply in_seq. lia.
Qed.

Lemma ltb_leb (x y : float) : (x <? y)%float = true -> (x <=? y)%float = true.
Proof.
  rewrite ltb_spec, leb_spec. unfold SFltb, SFleb.
  destruct (SFcompare (Prim2SF x) (Prim2SF y)) as [[]|]; congruence.
Qed.

Lemma clamp_metric_range (v : float) : in_metric_range (clamp_metric v).
Proof.
  unfold clamp_metric, py_max, py_min, in_metric_range.
  destruct (0.7 <? v)%float eqn:Hlo.
  - destruct (v <? 0.99)%float eqn:Hhi.
    + split; now apply ltb_leb.
    + split; reflexivity.
  - split; reflexivity.
Qed.

Lemma confidence_table (s : Z) : -10 <= s <= 10 -> confidence_facts s.
Proof.
  intros Hs. apply (interval_cases confidence_facts (-10) 21); [|lia].
  cbv [map seq]. unfold confidence_facts.
  repeat (apply Forall_cons;
          [eexists; split;
           [reflexivity | split_all; vm_compute; reflexivity]|]).
  apply Forall_nil.
Qed.

Lemma confidence_monotone (s1 s2 : Z) :
  -10 <= s1 -> s1 <= s2 -> s2 <= 10 -> monotone_at s1 s2 = true.
Proof.
  intros H1 H12 H2.
  assert (Hall : monotone_from s1 = true).
  { apply (interval_cases (fun s => monotone_from s = true) (-10) 21); [|lia].
    apply Forall_forall. intros s Hs.
    apply in_map_iff in Hs as (k & <- & Hk). apply in_seq in Hk.
    do 21 (destruct k as [|k]; [vm_compute; reflexivity|]). lia. }
  unfold monotone_from in Hall. rewrite forallb_forall in Hall.
  specialize (Hall s2).
  replace (s1 <=? s2) with true in Hall by (symmetry; apply Z.leb_le; lia).
  apply Hall, in_map_iff. exists (Z.to_nat (s2 + 10)). split; [lia|].
  apply in_seq. lia.
Qed.

(** ** [predict] *)

(** [predict] on a URL, from its score and the confidence of the score. *)
Lemma predict_eq (lower : str -> str) (u : str) (raw : float) :
  predict_confidence (predict_score lower u) = Ok raw ->
  exists c,
    predict lower u = Ok c /\
    url c = u /\
    risk_score c = predict_score lower u /\
    is_malicious c = (predict_score lower u >? 1) /\
    confidence c = py_round raw 3 /\
    probability_malicious c =
      py_round (if is_malicious c then raw else (1 - raw)%float) 3 /\
    probability_legitimate c =
      py_round (if is_malicious c then (1 - raw)%float else raw) 3 /\
    risk_level c =
      (if predict_score lower u >? 3 then ALTO
       else if predict_score lower u >? 1 then MEDIO else BAJO).
Proof.
  intros Hraw. unfold predict. rewrite Hraw. simpl bind.
  eexists. split; [reflexivity|]. simpl. split_all; reflexivity.
Qed.

Lemma predict_total (lower : str -> str) (u : str) :
  exists raw, predict_confidence (predict_score lower u) = Ok raw.
Proof.
  pose proof (predict_score_range lower u) as Hs.
  destruct (confidence_table (predict_score lower u)) as (raw & Hraw & _);
    [lia|]. now exists raw.
Qed.

Lemma risk_levels_distinct : ALTO <> MEDIO /\ ALTO <> BAJO /\ MEDIO <> BAJO.
Proof. split_all; discriminate. Qed.

Lemma ascii_checked (u : str) :
  forallb (fun c => (c <? 128)%N) u = true -> Forall (fun c => (c < 128)%N) u.
Proof.
  intros H. apply Forall_forall. intros c Hc.
  apply N.ltb_lt. revert c Hc. now apply forallb_forall.
Qed.

Lemma plain_checked (w : str) :
  forallb (fun c => (c <? 65)%N || ((90 <? c)%N && (c <? 128)%N)) w = true ->
  Forall plain w.
Proof.
  intros H. apply Forall_forall. intros c Hc.
  rewrite forallb_forall in H. specialize (H c Hc). unfold plain.
  apply orb_true_iff in H as [H|H].
  - left. now apply N.ltb_lt.
  - right. apply andb_true_iff in H as [H1 H2].
    split; now apply N.ltb_lt.
Qed.

(** C1. The risk score [predict] computes is the sum of the seven rule
    contributions (+3 suspicious word in the lower-cased URL, -2 trusted
    domain in the lower-cased URL, +1 no [https://] prefix, +1 more than
    3 dots, +1 more than 5 slashes, +2 an [@], +1 more than 100
    characters), it is the score of the returned record, and the rules
    taken in any other order give the same sum. *)
Theorem predict_score_sum_of_rules (lower : str -> str) (u : str) :
  predict_score lower u
  = (if rule1 lower u then 3 else 0) + (if rule2 lower u then -2 else 0)
    + (if rule3 u then 1 else 0) + (if rule4 u then 1 else 0)
    + (if rule5 u then 1 else 0) + (if rule6 u then 2 else 0)
    + (if rule7 u then 1 else 0)
  /\ (exists c, predict lower u = Ok c /\ risk_score c = predict_score lower u)
  /\ (forall rules, Permutation (rule_table lower) rules ->
        apply_rules rules u = predict_score lower u).
Proof.
  split; [|split].
  - apply score_as_sum.
  - destruct (predict_total lower u) as (raw & Hraw).
    destruct (predict_eq lower u raw Hraw) as (c & Hc & _ & Hs & _).
    now exists c.
  - intros rules Hperm. rewrite predict_score_rules.
    symmetry. now apply apply_rules_permutation.
Qed.

Lemma predict_score_sum_of_rules_witness :
  apply_rules (rev (rule_table lower_ascii)) scenario_url
  = predict_score lower_ascii scenario_url
  /\ predict_score lower_ascii scenario_url = 5.
Proof.
  split.
  - apply (predict_score_sum_of_rules lower_ascii scenario_url).
    apply Permutation_rev.
  - vm_compute. reflexivity.
Defined.

(** C2. In the record [predict] returns, [is_malicious] is
    [risk_score > 1], and [risk_level] is ALTO (high) exactly when the
    score exceeds 3, MEDIO (medium) exactly when it exceeds 1 and not 3,
    BAJO (low) exactly when it is at most 1. *)
Theorem predict_thresholds (lower : str -> str) (u : str) :
  exists c,
    predict lower u = Ok c /\
    risk_score c = predict_score lower u /\
    is_malicious c = (risk_score c >? 1) /\
    (risk_level c = ALTO <-> risk_score c > 3) /\
    (risk_level c = MEDIO <-> 1 < risk_score c <= 3) /\
    (risk_level c = BAJO <-> risk_score c <= 1).
Proof.
  destruct (predict_total lower u) as (raw & Hraw).
  destruct (predict_eq lower u raw Hraw)
    as (c & Hc & _ & Hs & Hm & _ & _ & _ & Hl).
  destruct risk_levels_distinct as (Ham & Hab & Hmb).
  exists c. rewrite Hs, Hm, Hl. split_all; try assumption; try reflexivity;
    destruct (Z.gtb_spec (predict_score lower u) 3);
    destruct (Z.gtb_spec (predict_score lower u) 1);
    split; intros Hgoal;
    solve [lia | reflexivity | congruence | exfalso; lia].
Qed.

(** C3. The confidence [predict] returns is
    [clamp(0.7 + risk_score * 0.05, 0.6, 0.98)], rounded to three decimals
    as every numeric output is: it is the double of the exact decimal
    value of that formula.  For every score from -10 to 10 the confidence
    lies within [[0.6, 0.98]], and it never decreases when the score
    grows. *)
Theorem predict_confidence_clamped :
  (forall lower u, exists c raw,
      predict lower u = Ok c /\
      predict_confidence (risk_score c) = Ok raw /\
      confidence c = py_round raw 3 /\
      confidence c = of_milli (confidence_milli (risk_score c)) /\
      (0.6 <=? confidence c)%float = true /\
      (confidence c <=? 0.98)%float = true)
  /\ (forall s, -10 <= s <= 10 -> exists raw,
      predict_confidence s = Ok raw /\
      (0.6 <=? raw)%float = true /\ (raw <=? 0.98)%float = true /\
      py_round raw 3 = of_milli (confidence_milli s) /\
      (0.6 <=? py_round raw 3)%float = true /\
      (py_round raw 3 <=? 0.98)%float = true)
  /\ (forall s1 s2, -10 <= s1 -> s1 <= s2 -> s2 <= 10 -> exists r1 r2,
      predict_confidence s1 = Ok r1 /\ predict_confidence s2 = Ok r2 /\
      (r1 <=? r2)%float = true /\
      (py_round r1 3 <=? py_round r2 3)%float = true).
Proof.
  split; [|split].
  - intros lower u. pose proof (predict_score_range lower u) as Hr.
    destruct (confidence_table (predict_score lower u))
      as (raw & Hraw & Hv & _ & _ & _ & Hlo & Hhi & _); [lia|].
    destruct (predict_eq lower u raw Hraw) as (c & Hc & _ & Hs & _ & Hcf & _).
    exists c, raw. rewrite Hs, Hcf, Hv. split_all; congruence.
  - intros s Hs.
    destruct (confidence_table s Hs)
      as (raw & Hraw & Hv & _ & Hlo' & Hhi' & Hlo & Hhi & _).
    exists raw. split_all; assumption.
  - intros s1 s2 H1 H12 H2.
    pose proof (confidence_monotone s1 s2 H1 H12 H2) as Hm.
    unfold monotone_at in Hm.
    destruct (predict_confidence s1) as [r1|]; [|discriminate].
    destruct (predict_confidence s2) as [r2|]; [|discriminate].
    apply andb_true_iff in Hm as [Ha Hb].
    exists r1, r2. split_all; first [assumption | reflexivity].
Qed.

Lemma predict_confidence_clamped_witness :
  (exists raw,
      predict_confidence 3 = Ok raw /\
      (0.6 <=? raw)%float = true /\ (raw <=? 0.98)%float = true /\
      py_round raw 3 = of_milli (confidence_milli 3) /\
      (0.6 <=? py_round raw 3)%float = true /\
      (py_round raw 3 <=? 0.98)%float = true)
  /\ (exists r1 r2,
      predict_confidence (-1) = Ok r1 /\ predict_confidence 2 = Ok r2 /\
      (r1 <=? r2)%float = true /\
      (py_round r1 3 <=? py_round r2 3)%float = true).
Proof.
  destruct predict_confidence_clamped as (_ & Hrange & Hmono).
  split.
  - apply (Hrange 3). lia.
  - apply (Hmono (-1) 2); lia.
Defined.

(** C4. In the record [predict] returns, [probability_malicious] is the
    confidence when the URL is malicious and one minus the confidence
    otherwise, [probability_legitimate] is the complement (each rounded
    to three decimals, so each is the double of the exact decimal), and
    the two sum to 1.0 within 0.001 (they sum to 1.0 exactly). *)
Theorem probabilities_complementary (lower : str -> str) (u : str) :
  exists c raw,
    predict lower u = Ok c /\
    predict_confidence (risk_score c) = Ok raw /\
    probability_malicious c =
      py_round (if is_malicious c then raw else (1 - raw)%float) 3 /\
    probability_legitimate c =
      py_round (if is_malicious c then (1 - raw)%float else raw) 3 /\
    probability_malicious c =
      of_milli (if is_malicious c then confidence_milli (risk_score c)
                else 1000 - confidence_milli (risk_score c)) /\
    probability_legitimate c =
      of_milli (if is_malicious c then 1000 - confidence_milli (risk_score c)
                else confidence_milli (risk_score c)) /\
    (if is_malicious c then probability_malicious c = confidence c
     else probability_legitimate c = confidence c) /\
    (probability_malicious c + probability_legitimate c)%float = 1%float /\
    (abs (probability_malicious c + probability_legitimate c - 1)
       <=? 0.001)%float = true.
Proof.
  pose proof (predict_score_range lower u) as Hr.
  destruct (confidence_table (predict_score lower u))
    as (raw & Hraw & Hv & Hv' & _ & _ & _ & _ & Hsum & Hsum' & Htol & Htol');
    [lia|].
  destruct (predict_eq lower u raw Hraw)
    as (c & Hc & _ & Hs & _ & Hcf & Hpm & Hpl & _).
  exists c, raw. rewrite Hs, Hpm, Hpl, Hcf.
  destruct (is_malicious c); split_all;
    first [assumption | exact eq_refl].
Qed.

(** C5. [predict] returns a record for every string, the empty one
    included: its one partial operation, the conversion of the score to
    a float, never raises because the score stays between -2 and 9.  It
    is a function of the URL (and of the case mapping) alone: it takes no
    [World] and returns none, so it reads and writes no state. *)
Theorem predict_never_raises :
  (forall lower u, exists c, predict lower u = Ok c /\ url c = u)
  /\ (forall lower, exists c, predict lower [] = Ok c /\ url c = [])
  /\ (forall lower u, -2 <= predict_score lower u <= 9)
  /\ (forall s, -10 <= s <= 10 -> exists raw, predict_confidence s = Ok raw).
Proof.
  assert (H : forall lower u, exists c, predict lower u = Ok c /\ url c = u).
  { intros lower u. destruct (predict_total lower u) as (raw & Hraw).
    destruct (predict_eq lower u raw Hraw) as (c & Hc & Hu & _).
    now exists c. }
  split_all.
  - exact H.
  - intros lower. apply H.
  - apply predict_score_range.
  - intros s Hs. destruct (confidence_table s Hs) as (raw & Hraw & _).
    now exists raw.
Qed.

Lemma predict_never_raises_witness :
  (exists raw, predict_confidence 9 = Ok raw)
  /\ (exists c, predict lower_ascii [] = Ok c /\ url c = []).
Proof.
  destruct predict_never_raises as (_ & Hempty & _ & Hconf).
  split.
  - apply (Hconf 9). lia.
  - apply (Hempty lower_ascii).
Defined.

Lemma https_prefix_cases (u : str) :
  startswith u (lit "https://") = false -> rule3 u = true.
Proof. unfold rule3. now intros ->. Qed.

(** C6, as the code has it.  A URL that contains "phishing" and does not
    start with "https://" scores at least 2 and is malicious; when its
    lower-cased form names none of the trusted domains it scores at
    least 4 and its risk level is ALTO (high). *)
Theorem phishing_without_https (lower : str -> str) (u : str) :
  keeps_plain lower ->
  contains (lit "phishing") u = true ->
  startswith u (lit "https://") = false ->
  exists c,
    predict lower u = Ok c /\
    2 <= risk_score c /\
    is_malicious c = true /\
    (rule2 lower u = false -> 4 <= risk_score c /\ risk_level c = ALTO).
Proof.
  intros Hl Hp Hh.
  assert (H1 : rule1 lower u = true).
  { unfold rule1. apply (any_contains _ (lit "phishing")).
    - left. reflexivity.
    - apply contains_lower; [exact Hl | | exact Hp].
      apply plain_checked. reflexivity. }
  pose proof (https_prefix_cases u Hh) as H3.
  pose proof (score_as_sum lower u) as Hsum.
  destruct (predict_total lower u) as (raw & Hraw).
  destruct (predict_eq lower u raw Hraw)
    as (c & Hc & _ & Hs & Hm & _ & _ & _ & Hlv).
  rewrite H1, H3 in Hsum.
  assert (Hge : 2 <= predict_score lower u).
  { rewrite Hsum. destruct (rule2 lower u), (rule4 u), (rule5 u), (rule6 u),
      (rule7 u); lia. }
  exists c. rewrite Hs, Hm, Hlv. split; [exact Hc|]. split; [exact Hge|].
  split; [apply Z.gtb_lt; lia|].
  intros H2. rewrite H2 in Hsum.
  assert (Hge4 : 4 <= predict_score lower u).
  { rewrite Hsum. destruct (rule4 u), (rule5 u), (rule6 u), (rule7 u); lia. }
  split; [exact Hge4|].
  replace (predict_score lower u >? 3) with true; [reflexivity|].
  symmetry. apply Z.gtb_lt. lia.
Qed.

Lemma phishing_without_https_witness :
  contains (lit "phishing") phishing_url = true /\
  startswith phishing_url (lit "https://") = false /\
  exists c,
    predict lower_ascii phishing_url = Ok c /\
    2 <= risk_score c /\
    is_malicious c = true /\
    (rule2 lower_ascii phishing_url = false ->
     4 <= risk_score c /\ risk_level c = ALTO).
Proof.
  split; [reflexivity|]. split; [reflexivity|].
  apply (phishing_without_https lower_ascii phishing_url).
  - exact lower_ascii_keeps_plain.
  - reflexivity.
  - reflexivity.
Defined.

(** C6, as the specification states it, fails: a URL that contains
    "phishing" and has no "https://" prefix, but names a trusted domain,
    scores 3 - 2 + 1 = 2, below 4, and its risk level is MEDIO. *)
Lemma phishing_without_https_counterexample :
  contains (lit "phishing") trusted_phishing_url = true /\
  startswith trusted_phishing_url (lit "https://") = false /\
  exists c,
    predict lower_ascii trusted_phishing_url = Ok c /\
    risk_score c = 2 /\ ~ 4 <= risk_score c /\
    is_malicious c = true /\
    risk_level c = MEDIO /\ risk_level c <> ALTO.
Proof.
  split; [reflexivity|]. split; [reflexivity|].
  eexists. split; [vm_compute; reflexivity|]. cbn [risk_score risk_level is_malicious].
  split_all; try reflexivity.
  - lia.
  - discriminate.
Qed.

Lemma scenario_lower (lower : str -> str) :
  agrees_on_ascii lower -> lower scenario_url = scenario_url.
Proof.
  intros Hl. rewrite Hl; [reflexivity|]. apply ascii_checked. reflexivity.
Qed.

(** C7. On the scenario URL rules 1 (+3), 3 (+1), 5 (+1) and 6 (+2)
    fire; so does rule 2 (-2, the URL names [example.com]), and rules 4
    and 7 do not.  The score is the sum of the table, 3 - 2 + 1 + 1 + 2 =
    5, the risk level is ALTO (high) and the URL is malicious. *)
Theorem scenario_prediction (lower : str -> str) :
  agrees_on_ascii lower ->
  rule1 lower scenario_url = true /\
  rule3 scenario_url = true /\
  rule5 scenario_url = true /\
  rule6 scenario_url = true /\
  rule2 lower scenario_url = true /\
  rule4 scenario_url = false /\
  rule7 scenario_url = false /\
  apply_rules (rule_table lower) scenario_url = 3 - 2 + 1 + 1 + 2 /\
  exists c,
    predict lower scenario_url = Ok c /\
    risk_score c = apply_rules (rule_table lower) scenario_url /\
    risk_score c = 5 /\
    risk_level c = ALTO /\
    is_malicious c = true.
Proof.
  intros Hl. pose proof (scenario_lower lower Hl) as Hlow.
  assert (H1 : rule1 lower scenario_url = true)
    by (unfold rule1; rewrite Hlow; reflexivity).
  assert (H2 : rule2 lower scenario_url = true)
    by (unfold rule2; rewrite Hlow; reflexivity).
  assert (Hscore : predict_score lower scenario_url = 5).
  { rewrite score_as_sum, H1, H2. reflexivity. }
  destruct (predict_total lower scenario_url) as (raw & Hraw).
  destruct (predict_eq lower scenario_url raw Hraw)
    as (c & Hc & _ & Hs & Hm & _ & _ & _ & Hlv).
  rewrite <- predict_score_rules, Hscore.
  split_all; try reflexivity; try assumption.
  exists c. rewrite Hs, Hm, Hlv, Hscore. split_all; try reflexivity.
  exact Hc.
Qed.

Lemma scenario_prediction_witness :
  rule1 lower_ascii scenario_url = true /\
  rule3 scenario_url = true /\
  rule5 scenario_url = true /\
  rule6 scenario_url = true /\
  rule2 lower_ascii scenario_url = true /\
  rule4 scenario_url = false /\
  rule7 scenario_url = false /\
  apply_rules (rule_table lower_ascii) scenario_url = 3 - 2 + 1 + 1 + 2 /\
  exists c,
    predict lower_ascii scenario_url = Ok c /\
    risk_score c = apply_rules (rule_table lower_ascii) scenario_url /\
    risk_score c = 5 /\
    risk_level c = ALTO /\
    is_malicious c = true.
Proof.
  apply (scenario_prediction lower_ascii). exact lower_ascii_agrees.
Defined.

(** ** Rounding

    A product or a sum, once rounded to a double, does not pass a double
    that its exact value does not pass.  The lemmas follow the rounding
    of [SpecFloat]: the shift to the exponent of the result, the
    rounding to nearest, the second shift after a carry. *)

Lemma fexp64_eq (x : Z) : fexp64 x = Z.max (x - 53) (-1074).
Proof. reflexivity. Qed.

Lemma digits2_bounds (m : positive) :
  2 ^ (digits m - 1) <= Zpos m < 2 ^ digits m.
Proof.
  induction m as [p IH|p IH|]; cbn [digits2_pos].
  - rewrite Pos2Z.inj_succ, Pos2Z.inj_xI.
    replace (Z.succ (digits p) - 1) with (Z.succ (digits p - 1)) by lia.
    rewrite !Z.pow_succ_r by lia.
    set (a := 2 ^ (digits p - 1)) in *. set (b := 2 ^ digits p) in *. clearbody a b. lia.
  - rewrite Pos2Z.inj_succ. change (Z.pos p~0) with (2 * Z.pos p).
    replace (Z.succ (digits p) - 1) with (Z.succ (digits p - 1)) by lia.
    rewrite !Z.pow_succ_r by lia.
    set (a := 2 ^ (digits p - 1)) in *. set (b := 2 ^ digits p) in *. clearbody a b. lia.
  - simpl. lia.
Qed.

Lemma digits_le_of_lt (m : positive) (b : Z) :
  0 <= b -> Zpos m < 2 ^ b -> digits m <= b.
Proof.
  intros Hb Hm. destruct (digits2_bounds m) as [Hlo _].
  assert (H : 2 ^ (digits m - 1) < 2 ^ b) by lia.
  apply Z.pow_lt_mono_r_iff in H; lia.
Qed.

Lemma digits_gt_of_le (m : positive) (b : Z) :
  0 <= b -> 2 ^ b <= Zpos m -> b < digits m.
Proof.
  intros Hb Hm. destruct (digits2_bounds m) as [_ Hhi].
  assert (H : 2 ^ b < 2 ^ digits m) by lia.
  apply Z.pow_lt_mono_r_iff in H; lia.
Qed.

(** magnitudes and exponents *)
Lemma magnitude_mono (M mc : positive) (e ec : Z) :
  e <= ec -> Zpos M <= Zpos mc * 2 ^ (ec - e) ->
  digits M + e <= digits mc + ec.
Proof.
  intros He Hle.
  destruct (digits2_bounds M) as [HM _]. destruct (digits2_bounds mc) as [_ Hc].
  assert (Hp : 0 < 2 ^ (ec - e)) by (apply Z.pow_pos_nonneg; lia).
  assert (H : 2 ^ (digits M - 1) < 2 ^ (digits mc + (ec - e))).
  { rewrite Z.pow_add_r by lia. nia. }
  apply Z.pow_lt_mono_r_iff in H; lia.
Qed.

Lemma iter_pos_nat {A} (f : A -> A) (p : positive) (x : A) :
  iter_pos f p x = Nat.iter (Pos.to_nat p) f x.
Proof.
  revert x. induction p as [p IH|p IH|]; intros x; cbn [iter_pos].
  - rewrite !IH, Pos2Nat.inj_xI, Nat.iter_succ_r.
    replace (2 * Pos.to_nat p)%nat with (Pos.to_nat p + Pos.to_nat p)%nat by lia.
    rewrite Nat.iter_add. reflexivity.
  - rewrite !IH, Pos2Nat.inj_xO.
    replace (2 * Pos.to_nat p)%nat with (Pos.to_nat p + Pos.to_nat p)%nat by lia.
    rewrite Nat.iter_add. reflexivity.
  - reflexivity.
Qed.

Lemma shr_1_spec (m : Z) (r s : bool) :
  0 <= m ->
  shr_1 (Build_shr_record m r s)
  = Build_shr_record (m / 2) (Z.odd m) (r || s).
Proof.
  intros Hm. rewrite <- Z.div2_div.
  destruct m as [|[p|p|]|p]; try lia; reflexivity.
Qed.

Lemma shr_iter_spec (n : nat) (m : Z) :
  0 <= m ->
  let R := Nat.iter n shr_1 (Build_shr_record m false false) in
  shr_m R = m / 2 ^ Z.of_nat n /\
  ((2 ^ Z.of_nat n | m) -> shr_r R = false /\ shr_s R = false).
Proof.
  intros Hm. induction n as [|n IH]; cbv zeta in *.
  - simpl. rewrite Z.div_1_r. split; [reflexivity | intros _; split; reflexivity].
  - rewrite Nat.iter_succ. destruct IH as [IHm IHe].
    destruct (Nat.iter n shr_1 _) as [q r s]. cbn [shr_m shr_r shr_s] in *.
    assert (Hq : 0 <= q) by (subst q; apply Z.div_pos; [lia | apply Z.pow_pos_nonneg; lia]).
    rewrite (shr_1_spec q r s Hq). cbn [shr_m shr_r shr_s].
    rewrite Nat2Z.inj_succ, Z.pow_succ_r by lia.
    assert (Hp : 0 < 2 ^ Z.of_nat n) by (apply Z.pow_pos_nonneg; lia).
    split.
    + subst q. rewrite Z.div_div by lia. f_equal. lia.
    + intros [c Hc].
      assert (Hdiv : (2 ^ Z.of_nat n | m)) by (exists (c * 2); lia).
      destruct (IHe Hdiv) as [-> ->]. split; [|reflexivity].
      assert (Hqc : q = c * 2).
      { subst q. rewrite Hc. replace (c * (2 * 2 ^ Z.of_nat n)) with (c * 2 * 2 ^ Z.of_nat n) by lia.
        apply Z.div_mul. lia. }
      rewrite Hqc, Z.odd_mul. simpl. apply andb_false_r.
Qed.

Lemma shr_spec (m e n : Z) :
  0 <= m ->
  let '(R, e') := shr (Build_shr_record m false false) e n in
  e' = e + Z.max n 0 /\
  shr_m R = m / 2 ^ Z.max n 0 /\
  ((2 ^ Z.max n 0 | m) -> shr_r R = false /\ shr_s R = false).
Proof.
  intros Hm. unfold shr. destruct n as [|p|p].
  - simpl. rewrite Z.div_1_r. repeat split; lia.
  - rewrite iter_pos_nat.
    destruct (shr_iter_spec (Pos.to_nat p) m Hm) as [H1 H2].
    rewrite positive_nat_Z in *.
    replace (Z.max (Z.pos p) 0) with (Z.pos p) by lia.
    repeat split; try assumption; try lia; now apply H2.
  - simpl. rewrite Z.div_1_r. repeat split; lia.
Qed.

Lemma round_nearest_even_spec (R : shr_record) :
  let m1 := round_nearest_even (shr_m R) (loc_of_shr_record R) in
  shr_m R <= m1 <= shr_m R + 1 /\
  (shr_r R = false /\ shr_s R = false -> m1 = shr_m R).
Proof.
  destruct R as [q [|] [|]]; simpl; try (destruct (Z.even q)); split;
    try lia; try (intros [? ?]; discriminate); reflexivity.
Qed.

Lemma canonical_exponent (mc : positive) (ec : Z) :
  bounded prec emax mc ec = true ->
  fexp64 (digits mc + ec) = ec /\ ec <= 971.
Proof.
  unfold bounded, canonical_mantissa. intros H.
  apply andb_true_iff in H as [H1 H2].
  apply Z.eqb_eq in H1. apply Z.leb_le in H2. split; [exact H1 | exact H2].
Qed.

Lemma binary_round_aux_below (s : bool) (M mc : positive) (e ec : Z) :
  bounded prec emax mc ec = true ->
  e <= fexp64 (digits M + e) ->
  e <= ec -> Zpos M <= Zpos mc * 2 ^ (ec - e) ->
  below s mc ec (binary_round_aux prec emax s (Zpos M) e loc_Exact).
Proof.
  intros Hc Hal He Hle. destruct (canonical_exponent mc ec Hc) as [Hcan Hmax].
  unfold binary_round_aux, shr_fexp.
  cbn [Zdigits2 shr_record_of_loc].
  set (n1 := fexp64 (digits M + e) - e).
  assert (Hn1 : 0 <= n1) by (unfold n1; lia).
  pose proof (shr_spec (Zpos M) e n1 (Pos2Z.is_nonneg M)) as H1.
  destruct (shr _ e n1) as [R1 e1].
  replace (Z.max n1 0) with n1 in H1 by lia.
  destruct H1 as (He1 & Hq & Hexact).
  pose proof (round_nearest_even_spec R1) as Hr. cbv zeta in Hr.
  set (m1 := round_nearest_even (shr_m R1) (loc_of_shr_record R1)) in *.
  destruct Hr as (Hm1 & Hm1e).
  assert (Hp1 : 0 < 2 ^ n1) by (apply Z.pow_pos_nonneg; lia).
  assert (Hq0 : 0 <= shr_m R1)
    by (rewrite Hq; apply Z.div_pos; lia).
  (* the exponent after the first shift is at most ec *)
  assert (He1c : e1 <= ec).
  { pose proof (magnitude_mono M mc e ec He Hle) as Hmag.
    rewrite He1. unfold n1. rewrite !fexp64_eq in *. lia. }
  (* the rounded mantissa is below the bound, on exponent e1 *)
  assert (Hm1c : m1 <= Zpos mc * 2 ^ (ec - e1)).
  { assert (Hsplit : Zpos mc * 2 ^ (ec - e) = Zpos mc * 2 ^ (ec - e1) * 2 ^ n1).
    { rewrite <- Z.mul_assoc, <- Z.pow_add_r by lia. f_equal. f_equal. lia. }
    set (G := Zpos mc * 2 ^ (ec - e1)) in *.
    rewrite Hsplit in Hle.
    assert (HqG : shr_m R1 <= G).
    { rewrite Hq. apply Z.div_le_upper_bound; lia. }
    destruct (Z.eq_dec m1 (shr_m R1)) as [->|Hne]; [exact HqG|].
    assert (Hnd : ~ (2 ^ n1 | Zpos M)).
    { intros Hd. apply Hne. now apply Hm1e, Hexact. }
    assert (Hlt : shr_m R1 < G).
    { rewrite Hq. apply Z.div_lt_upper_bound; [lia|].
      destruct (Z.eq_dec (Zpos M) (2 ^ n1 * G)) as [E|E]; [|lia].
      exfalso. apply Hnd. exists G. lia. }
    lia. }
  assert (Hm10 : 0 <= m1) by lia.
  pose proof (shr_spec m1 e1 (fexp64 (Zdigits2 m1 + e1) - e1) Hm10) as H2.
  destruct (shr _ e1 _) as [R2 e2].
  set (n2 := Z.max (fexp64 (Zdigits2 m1 + e1) - e1) 0) in *.
  destruct H2 as (He2 & Hq2 & _).
  assert (Hn2 : 0 <= n2) by (unfold n2; lia).
  assert (Hp2 : 0 < 2 ^ n2) by (apply Z.pow_pos_nonneg; lia).
  destruct (shr_m R2) as [|m2|m2] eqn:Em2.
  - reflexivity.
  - (* m1 is positive here *)
    destruct m1 as [|p1|p1] eqn:Ep1; try lia.
    { rewrite Z.div_0_l in Hq2 by lia. discriminate. }
    cbn [Zdigits2] in n2.
    assert (He2c : e2 <= ec).
    { pose proof (magnitude_mono p1 mc e1 ec He1c Hm1c) as Hmag.
      rewrite He2. unfold n2. rewrite !fexp64_eq in *. lia. }
    replace (e2 <=? emax - prec) with true
      by (symmetry; apply Z.leb_le; change (emax - prec) with 971; lia).
    cbn [below]. split; [reflexivity|]. split; [exact He2c|].
    assert (Hsplit : Zpos mc * 2 ^ (ec - e1) = Zpos mc * 2 ^ (ec - e2) * 2 ^ n2).
    { rewrite <- Z.mul_assoc, <- Z.pow_add_r by lia. f_equal. f_equal. lia. }
    rewrite Hsplit in Hm1c. rewrite Hq2.
    apply Z.div_le_upper_bound; lia.
  - exfalso. assert (0 <= m1 / 2 ^ n2) by (apply Z.div_pos; lia). lia.
Qed.

Lemma digits_unique (m : positive) (b : Z) :
  2 ^ (b - 1) <= Zpos m < 2 ^ b -> 1 <= b -> digits m = b.
Proof.
  intros [Hlo Hhi] Hb.
  pose proof (digits_le_of_lt m b ltac:(lia) Hhi).
  pose proof (digits_gt_of_le m (b - 1) ltac:(lia) Hlo). lia.
Qed.

Lemma shl_align_spec (mx : positive) (ex ex' : Z) :
  let '(mz, ez) := shl_align mx ex ex' in
  ez = Z.min ex ex' /\ Zpos mz = Zpos mx * 2 ^ (ex - ez).
Proof.
  unfold shl_align. destruct (ex' - ex) as [|d|d] eqn:E.
  - split; [lia|]. rewrite Z.sub_diag. simpl. lia.
  - split; [lia|]. rewrite Z.sub_diag. simpl. lia.
  - split; [lia|]. replace (ex - ex') with (Zpos d) by lia.
    change (Pos.iter xO mx d) with (shift_pos d mx).
    rewrite shift_pos_correct. change (2 ^ Z.pos d) with (Z.pow_pos 2 d). lia.
Qed.

Lemma binary_round_below (s : bool) (mx mc : positive) (ex ec : Z) :
  bounded prec emax mc ec = true ->
  ex <= ec -> Zpos mx <= Zpos mc * 2 ^ (ec - ex) ->
  below s mc ec (binary_round prec emax s mx ex).
Proof.
  intros Hc He Hle. unfold binary_round.
  pose proof (shl_align_spec mx ex (fexp64 (digits mx + ex))) as Hs.
  destruct (shl_align mx ex _) as [mz ez]. destruct Hs as (Hez & Hmz).
  assert (Ht : 0 <= ex - ez) by lia.
  assert (Hp : 0 < 2 ^ (ex - ez)) by (apply Z.pow_pos_nonneg; lia).
  assert (Hd : digits mz = digits mx + (ex - ez)).
  { apply digits_unique; [|pose proof (Pos2Z.is_pos (digits2_pos mx)); lia].
    destruct (digits2_bounds mx) as [Hlo Hhi]. rewrite Hmz.
    replace (digits mx + (ex - ez) - 1) with (digits mx - 1 + (ex - ez)) by lia.
    rewrite !Z.pow_add_r by (pose proof (Pos2Z.is_pos (digits2_pos mx)); lia).
    split; nia. }
  apply binary_round_aux_below; try assumption.
  - rewrite Hd. replace (digits mx + (ex - ez) + ez) with (digits mx + ex) by lia.
    lia.
  - lia.
  - rewrite Hmz. replace (ec - ez) with (ec - ex + (ex - ez)) by lia.
    rewrite Z.pow_add_r by lia. nia.
Qed.

(** A float below [mc * 2^ec] in magnitude lies between the two floats
    of that magnitude. *)
Lemma below_between (s : bool) (mc : positive) (ec : Z) (F : spec_float) :
  below s mc ec F ->
  SFleb (S754_finite true mc ec) F = true /\
  SFleb F (S754_finite false mc ec) = true.
Proof.
  destruct F as [s'|s'| |s' m e]; cbn [below]; try contradiction.
  - intros _. split; reflexivity.
  - intros (-> & He & Hm). unfold SFleb, SFcompare.
    change (Pos.compare_cont Eq) with Pos.compare.
    assert (Hcase : e < ec \/ (e = ec /\ (m <= mc)%positive)).
    { destruct (Z.eq_dec e ec) as [->|Hne]; [right | left; lia].
      split; [reflexivity|]. rewrite Z.sub_diag in Hm. simpl in Hm. lia. }
    destruct s.
    + split; [|reflexivity].
      destruct Hcase as [Hlt|[-> Hle]].
      * replace (ec ?= e) with Gt by (symmetry; apply Z.compare_gt_iff; lia).
        reflexivity.
      * rewrite Z.compare_refl.
        destruct (Pos.compare_spec mc m) as [?|?|?]; try reflexivity. lia.
    + split; [reflexivity|].
      destruct Hcase as [Hlt|[-> Hle]].
      * replace (e ?= ec) with Lt by (symmetry; apply Z.compare_lt_iff; lia).
        reflexivity.
      * rewrite Z.compare_refl.
        destruct (Pos.compare_spec m mc) as [?|?|?]; try reflexivity. lia.
Qed.

Lemma SFmul_below (mx my mc : positive) (ex ey ec : Z) :
  2 ^ 52 <= Zpos mx * Zpos my ->
  bounded prec emax mc ec = true ->
  ex + ey <= ec ->
  Zpos mx * Zpos my <= Zpos mc * 2 ^ (ec - (ex + ey)) ->
  below false mc ec
    (SFmul prec emax (S754_finite false mx ex) (S754_finite false my ey)).
Proof.
  intros Hbig Hc He Hle. cbn [SFmul xorb].
  apply binary_round_aux_below; try assumption.
  pose proof (digits_gt_of_le (mx * my) 52 ltac:(lia) Hbig).
  rewrite fexp64_eq. lia.
Qed.

Lemma random_value_below (k : Z) :
  below false (2 ^ 53 - 1)%positive (-53) (Prim2SF (random_value k)).
Proof.
  unfold random_value. rewrite FloatAxioms.mul_spec, FloatAxioms.of_uint63_spec, Uint63.of_Z_spec.
  assert (Hk : 0 <= k mod 2 ^ 53 < 2 ^ 53) by (apply Z.mod_pos_bound; lia).
  set (K := k mod 2 ^ 53) in *.
  rewrite (Z.mod_small K) by (change Uint63.wB with (2 ^ 63); lia).
  change (Prim2SF 0x1p-53) with (S754_finite false (2 ^ 52)%positive (-105)).
  destruct K as [|p|p]; try lia.
  - reflexivity.
  - cbn [binary_normalize].
    pose proof (binary_round_below false p (2 ^ 53 - 1)%positive 0 0 eq_refl
                  ltac:(lia)) as Hb.
    destruct (binary_round prec emax false p 0) as [s|s| |s mk ek];
      cbn [below] in Hb.
    + specialize (Hb ltac:(simpl; lia)). subst s. reflexivity.
    + exfalso. apply Hb. simpl. lia.
    + exfalso. apply Hb. simpl. lia.
    + destruct Hb as (-> & Hek & Hmk); [simpl; lia|].
      unfold SF64mul. apply SFmul_below.
      * change (Zpos (2 ^ 52)) with (2 ^ 52). pose proof (Pos2Z.is_pos mk). nia.
      * reflexivity.
      * lia.
      * change (Zpos (2 ^ 52)) with (2 ^ 52).
        replace (-53 - (ek + -105)) with (52 + (0 - ek)) by lia.
        rewrite Z.pow_add_r by lia.
        change (Z.pos (2 ^ 53 - 1)) with (2 ^ 53 - 1) in *. nia.
Qed.

Lemma scaled_below (k : Z) :
  below false jitter_mantissa (-57)
    (Prim2SF ((0.02 - -0.02) * random_value k)%float).
Proof.
  rewrite FloatAxioms.mul_spec.
  change (Prim2SF (0.02 - -0.02)%float)
    with (S754_finite false jitter_mantissa (-57)).
  pose proof (random_value_below k) as Hr.
  destruct (Prim2SF (random_value k)) as [s|s| |s mr er]; cbn [below] in Hr;
    try contradiction.
  - subst s. reflexivity.
  - destruct Hr as (-> & Her & Hmr). unfold SF64mul. apply SFmul_below.
    + unfold jitter_mantissa. pose proof (Pos2Z.is_pos mr). nia.
    + reflexivity.
    + lia.
    + replace (-57 - (-57 + er)) with (0 - er) by lia.
      assert (Hlt : Zpos mr < 2 ^ (0 - er)).
      { replace (0 - er) with (53 + (-53 - er)) by lia.
        rewrite Z.pow_add_r by lia.
        change (Z.pos (2 ^ 53 - 1)) with (2 ^ 53 - 1) in Hmr.
        assert (0 < 2 ^ (-53 - er)) by (apply Z.pow_pos_nonneg; lia). nia. }
      pose proof (Pos2Z.is_pos jitter_mantissa). nia.
Qed.

(** What [random.uniform(-0.02, 0.02)] returns lies within
    [[-0.02, 0.02]], whatever the generator draws. *)
Lemma uniform_value_range (k : Z) :
  let j := (-0.02 + (0.02 - -0.02) * random_value k)%float in
  (-0.02 <=? j)%float = true /\ (j <=? 0.02)%float = true.
Proof.
  cbv zeta. rewrite !FloatAxioms.leb_spec, FloatAxioms.add_spec.
  change (Prim2SF (-0.02)%float) with (S754_finite true jitter_mantissa (-58)).
  change (Prim2SF 0.02%float) with (S754_finite false jitter_mantissa (-58)).
  pose proof (scaled_below k) as Ht.
  destruct (Prim2SF ((0.02 - -0.02) * random_value k)%float)
    as [s|s| |s mt et]; cbn [below] in Ht; try contradiction.
  - subst s. split; reflexivity.
  - destruct Ht as (-> & Het & Hmt). unfold SF64add. cbn [SFadd cond_Zopp].
    pose proof (shl_align_spec jitter_mantissa (-58) (Z.min (-58) et)) as Ha.
    pose proof (shl_align_spec mt et (Z.min (-58) et)) as Hb.
    destruct (shl_align jitter_mantissa (-58) _) as [ma' ea'].
    destruct (shl_align mt et _) as [mt' et']. cbn [fst].
    destruct Ha as (Hea & Hma). destruct Hb as (Heb & Hmb).
    set (ez := Z.min (-58) et) in *.
    assert (Hbound : Zpos mt' <= 2 * Zpos ma').
    { rewrite Hmb, Hma, Hea, Heb.
      replace (Z.min et ez) with ez by lia.
      replace (Z.min (-58) ez) with ez by lia.
      assert (H1 : 0 < 2 ^ (et - ez)) by (apply Z.pow_pos_nonneg; lia).
      assert (H2 : Zpos mt * 2 ^ (et - ez)
                   <= Zpos jitter_mantissa * 2 ^ (-57 - et) * 2 ^ (et - ez))
        by nia.
      rewrite <- Z.mul_assoc, <- Z.pow_add_r in H2 by lia.
      replace (-57 - et + (et - ez)) with (1 + (-58 - ez)) in H2 by lia.
      rewrite Z.pow_add_r in H2 by lia. change (2 ^ 1) with 2 in H2. lia. }
    assert (Hma' : Zpos ma' = Zpos jitter_mantissa * 2 ^ (-58 - ez))
      by (rewrite Hma, Hea; f_equal; f_equal; lia).
    apply (below_between
             (match - Zpos ma' + Zpos mt' with Zneg _ => true | _ => false end)).
    destruct (- Zpos ma' + Zpos mt') as [|S|S] eqn:ES; cbn [binary_normalize].
    + reflexivity.
    + apply binary_round_below; [reflexivity | lia | lia].
    + apply binary_round_below; [reflexivity | lia | lia].
Qed.

(** ** The model state *)

Lemma eqb_eq (a b : str) : Str.eqb a b = true <-> a = b.
Proof.
  revert b. induction a as [|x xs IH]; intros [|y ys]; simpl;
    try (split; [discriminate | discriminate]); [tauto|].
  rewrite andb_true_iff, N.eqb_eq, IH. split.
  - intros [-> ->]. reflexivity.
  - intros H. injection H as -> ->. split; reflexivity.
Qed.

Lemma dict_get_in_keys {V} (key : str) (d : list (str * V)) (v : V) :
  dict_get key d = Some v -> In key (map fst d).
Proof.
  induction d as [|[k x] d IH]; simpl; [discriminate|].
  destruct (Str.eqb k key) eqn:E.
  - intros _. left. now apply eqb_eq.
  - intros H. right. now apply IH.
Qed.

Lemma base_metrics_keys : map fst base_metrics = kernels.
Proof. reflexivity. Qed.

Lemma dict_get_unknown (k : str) :
  ~ In k kernels -> dict_get k base_metrics = None.
Proof.
  intros Hk. destruct (dict_get k base_metrics) as [m|] eqn:E; [|reflexivity].
  apply dict_get_in_keys in E. rewrite base_metrics_keys in E. contradiction.
Qed.

Lemma dict_get_known (k : str) :
  In k kernels ->
  exists a p r f, dict_get k base_metrics = Some (mk_metrics a p r f).
Proof.
  unfold kernels. simpl. intros [<-|[<-|[<-|[<-|[]]]]];
    do 4 eexists; reflexivity.
Qed.

Lemma jittered_frame (items : Metrics) (w : World) :
  let w' := snd (jittered items w) in
  model w' = model w /\ clock w' = clock w /\ pkl w' = pkl w /\
  pkl_writable w' = pkl_writable w /\ uniform_draws w' = uniform_draws w.
Proof.
  revert w. induction items as [|[k v] rest IH]; intros w; cbn [jittered].
  - split_all; reflexivity.
  - specialize (IH (snd (random_random w))). cbv zeta in IH.
    unfold random_uniform.
    change (random_random w)
      with (random_value (random_draws w (drawn w)), snd (random_random w)).
    cbv iota beta.
    destruct (jittered rest (snd (random_random w))) as [rest' w2].
    cbn [snd] in *. exact IH.
Qed.

Lemma jittered_environment (items : Metrics) (w : World) :
  let w' := snd (jittered items w) in
  pkl_damaged w' = pkl_damaged w /\ pkl_failure w' = pkl_failure w.
Proof.
  revert w. induction items as [|[k v] rest IH]; intros w; cbn [jittered].
  - split; reflexivity.
  - specialize (IH (snd (random_random w))). cbv zeta in IH.
    unfold random_uniform.
    change (random_random w)
      with (random_value (random_draws w (drawn w)), snd (random_random w)).
    cbv iota beta.
    destruct (jittered rest (snd (random_random w))) as [rest' w2].
    cbn [snd] in *. exact IH.
Qed.

Lemma update_metrics_result (k : str) (w : World) :
  fst (update_metrics k w) = get_metrics (snd (update_metrics k w)).
Proof. reflexivity. Qed.

Lemma update_metrics_frame (k : str) (w : World) :
  let w' := snd (update_metrics k w) in
  kernel (model w') = kernel (model w) /\ clock w' = clock w /\
  pkl w' = pkl w /\ pkl_writable w' = pkl_writable w.
Proof.
  unfold update_metrics. cbn [snd].
  destruct (dict_get k base_metrics) as [base|].
  - pose proof (jittered_frame base w) as H. cbv zeta in H.
    destruct (jittered base w) as [m w1].
    cbn [snd set_metrics set_model model kernel clock pkl pkl_writable] in *.
    destruct H as (Hm & Hc & Hp & Hw & _). rewrite Hm.
    split_all; first [assumption | reflexivity].
  - split_all; reflexivity.
Qed.

(** C8. A kernel name outside {rbf, linear, poly, sigmoid} changes
    nothing: [update_metrics] returns the metrics it found and leaves the
    process as it was, and through [train_model] the metrics
    [get_metrics] reads afterwards are those of before, which the answer
    carries when the call succeeds; no error is raised for the name. *)
Theorem update_metrics_unknown_kernel (k : str) (w : World) :
  ~ In k kernels ->
  update_metrics k w = (get_metrics w, w) /\
  forall C,
    get_metrics (snd (train_model k C w)) = get_metrics w /\
    (pkl_writable w = true ->
     exists resp, fst (train_model k C w) = Ok resp /\
                  resp_metrics resp = get_metrics w).
Proof.
  intros Hk. pose proof (dict_get_unknown k Hk) as Hget.
  assert (Hu : forall w0, update_metrics k w0 = (get_metrics w0, w0)).
  { intros w0. unfold update_metrics. rewrite Hget. reflexivity. }
  split; [apply Hu|]. intros C.
  unfold train_model. rewrite Hu. unfold joblib_dump. simpl.
  destruct (pkl_writable w) eqn:Hw; simpl.
  - split; [reflexivity|]. intros _. eexists. split; reflexivity.
  - destruct (pkl_failure w); (split; [reflexivity | discriminate]).
Qed.

Lemma update_metrics_unknown_kernel_witness :
  update_metrics unknown_kernel demo_world
  = (get_metrics demo_world, demo_world) /\
  forall C,
    get_metrics (snd (train_model unknown_kernel C demo_world))
    = get_metrics demo_world /\
    (pkl_writable demo_world = true ->
     exists resp, fst (train_model unknown_kernel C demo_world) = Ok resp /\
                  resp_metrics resp = get_metrics demo_world).
Proof.
  apply (update_metrics_unknown_kernel unknown_kernel demo_world).
  unfold kernels. simpl. intros [H|[H|[H|[H|[]]]]]; discriminate H.
Defined.

(** C9. For a kernel name in {rbf, linear, poly, sigmoid},
    [update_metrics] stores and returns the baseline of that kernel with
    a jitter added to each of the four values, in the order accuracy,
    precision, recall, f1_score, each sum clamped to [[0.7, 0.99]].  Each
    jitter is what a call of its own of [random.uniform(-0.02, 0.02)]
    returns, on a draw of its own of the generator, and lies within
    [[-0.02, 0.02]] whatever the generator draws; every value stored
    lies within [[0.7, 0.99]]. *)
Theorem update_metrics_known_kernel (k : str) (w : World) :
  In k kernels ->
  exists a p r f w',
    dict_get k base_metrics = Some (mk_metrics a p r f) /\
    update_metrics k w = (get_metrics w', w') /\
    get_metrics w' =
      mk_metrics (clamp_metric (a + uniform_draws w (0 + drawn w)%nat))
                 (clamp_metric (p + uniform_draws w (1 + drawn w)%nat))
                 (clamp_metric (r + uniform_draws w (2 + drawn w)%nat))
                 (clamp_metric (f + uniform_draws w (3 + drawn w)%nat)) /\
    drawn w' = (4 + drawn w)%nat /\
    Forall (fun kv => in_metric_range (snd kv)) (get_metrics w') /\
    (forall w0, fst (random_uniform (-0.02) 0.02 w0)
                = uniform_draws w0 (drawn w0)) /\
    (forall i, (-0.02 <=? uniform_draws w i)%float = true /\
               (uniform_draws w i <=? 0.02)%float = true).
Proof.
  intros Hk. destruct (dict_get_known k Hk) as (a & p & r & f & Hget).
  exists a, p, r, f, (snd (update_metrics k w)).
  split; [exact Hget|]. split; [reflexivity|].
  assert (Hm : get_metrics (snd (update_metrics k w)) =
      mk_metrics (clamp_metric (a + uniform_draws w (0 + drawn w)%nat))
                 (clamp_metric (p + uniform_draws w (1 + drawn w)%nat))
                 (clamp_metric (r + uniform_draws w (2 + drawn w)%nat))
                 (clamp_metric (f + uniform_draws w (3 + drawn w)%nat))).
  { unfold update_metrics. rewrite Hget. reflexivity. }
  split; [exact Hm|]. split; [|split; [|split]].
  - unfold update_metrics. rewrite Hget. reflexivity.
  - rewrite Hm. unfold mk_metrics.
    repeat (apply Forall_cons; [apply clamp_metric_range|]). apply Forall_nil.
  - intros w0. reflexivity.
  - intros i. apply (uniform_value_range (random_draws w i)).
Qed.

Lemma update_metrics_known_kernel_witness :
  exists a p r f w',
    dict_get (lit "sigmoid") base_metrics = Some (mk_metrics a p r f) /\
    update_metrics (lit "sigmoid") demo_world = (get_metrics w', w') /\
    get_metrics w' =
      mk_metrics
        (clamp_metric (a + uniform_draws demo_world (0 + drawn demo_world)%nat))
        (clamp_metric (p + uniform_draws demo_world (1 + drawn demo_world)%nat))
        (clamp_metric (r + uniform_draws demo_world (2 + drawn demo_world)%nat))
        (clamp_metric (f + uniform_draws demo_world (3 + drawn demo_world)%nat))
    /\ drawn w' = (4 + drawn demo_world)%nat /\
    Forall (fun kv => in_metric_range (snd kv)) (get_metrics w') /\
    (forall w0, fst (random_uniform (-0.02) 0.02 w0)
                = uniform_draws w0 (drawn w0)) /\
    (forall i, (-0.02 <=? uniform_draws demo_world i)%float = true /\
               (uniform_draws demo_world i <=? 0.02)%float = true).
Proof.
  apply (update_metrics_known_kernel (lit "sigmoid") demo_world).
  unfold kernels. simpl. tauto.
Defined.

(** C10. A call of [train_model] that succeeds, for any kernel name at
    all, leaves that name in [model.kernel] and the record (kernel, C,
    metrics, timestamp) in the pickle file, with the metrics of the model
    and the time of the call; for a name outside {rbf, linear, poly,
    sigmoid} those metrics are the ones of before the call.  The call
    succeeds whenever the file can be written. *)
Theorem train_model_sets_kernel (k : str) (C : float) (w : World) :
  (pkl_writable w = true ->
   exists resp w', train_model k C w = (Ok resp, w'))
  /\ (forall resp w', train_model k C w = (Ok resp, w') ->
        kernel (model w') = k /\
        pkl w' = Some {| saved_kernel := k;
                         saved_C := C;
                         saved_metrics := get_metrics w';
                         saved_timestamp := clock w' |} /\
        resp_kernel resp = k /\
        resp_C resp = C /\
        resp_metrics resp = get_metrics w' /\
        (~ In k kernels -> get_metrics w' = get_metrics w)).
Proof.
  pose proof (update_metrics_frame k (time_sleep 1.5 w)) as Hf.
  pose proof (update_metrics_result k (time_sleep 1.5 w)) as Hr.
  assert (Hunknown : ~ In k kernels ->
            snd (update_metrics k (time_sleep 1.5 w)) = time_sleep 1.5 w).
  { intros Hk. unfold update_metrics.
    rewrite (dict_get_unknown k Hk). reflexivity. }
  unfold train_model.
  destruct (update_metrics k (time_sleep 1.5 w)) as [m w1].
  cbv zeta in Hf. cbn [fst snd] in Hf, Hr, Hunknown.
  destruct Hf as (_ & _ & _ & Hw). subst m.
  unfold joblib_dump. cbn [pkl_writable set_kernel set_model]. rewrite Hw.
  cbn [pkl_writable time_sleep].
  destruct (pkl_writable w); split.
  - intros _. do 2 eexists. reflexivity.
  - intros resp w' H. injection H as <- <-.
    cbn. split_all; try reflexivity.
    intros Hk. rewrite (Hunknown Hk). reflexivity.
  - discriminate.
  - intros resp w' H.
    destruct (pkl_failure (set_kernel k w1)); discriminate H.
Qed.

Lemma train_model_sets_kernel_witness :
  (exists resp w', train_model unknown_kernel 1 demo_world = (Ok resp, w'))
  /\ (let w' := snd (train_model unknown_kernel 1 demo_world) in
      kernel (model w') = unknown_kernel /\
      pkl w' = Some {| saved_kernel := unknown_kernel;
                       saved_C := 1;
                       saved_metrics := get_metrics demo_world;
                       saved_timestamp := clock w' |}).
Proof.
  destruct (train_model_sets_kernel unknown_kernel 1 demo_world)
    as (Hok & Hpost).
  destruct (Hok eq_refl) as (resp & w' & Hrun).
  split; [now exists resp, w'|].
  destruct (Hpost resp w' Hrun) as (Hk & Hp & _ & _ & _ & Hm).
  rewrite Hrun. cbn [snd]. split; [exact Hk|].
  rewrite Hp, Hm; [reflexivity|].
  unfold kernels. simpl. intros [H|[H|[H|[H|[]]]]]; discriminate H.
Defined.

(** * Further properties of the code *)

(** ** [predict] *)

Lemma predict_labels (lower : str -> str) (u : str) (c : Classification) :
  predict lower u = Ok c ->
  prediction c = (if is_malicious c then MALICIOSA else LEGITIMA) /\
  recommendation c =
    (if is_malicious c then recommendation_malicious
     else recommendation_safe) /\
  features_count c = 8.
Proof.
  unfold predict. destruct (predict_confidence (predict_score lower u));
    simpl; [|discriminate].
  intros H. injection H as <-. simpl. split_all; reflexivity.
Qed.

Lemma labels_distinct :
  MALICIOSA <> LEGITIMA /\ recommendation_malicious <> recommendation_safe.
Proof. split; discriminate. Qed.

Lemma predict_probabilities (lower : str -> str) (u : str) :
  exists c,
    predict lower u = Ok c /\
    risk_score c = predict_score lower u /\
    is_malicious c = (predict_score lower u >? 1) /\
    probabilities_at (predict_score lower u)
    = Some (probability_malicious c, probability_legitimate c).
Proof.
  destruct (predict_total lower u) as (raw & Hraw).
  destruct (predict_eq lower u raw Hraw)
    as (c & Hc & _ & Hs & Hm & _ & Hpm & Hpl & _).
  exists c. split_all; try assumption.
  unfold probabilities_at. rewrite Hraw, Hpm, Hpl, Hm. reflexivity.
Qed.

Lemma gap_table (s : Z) : -2 <= s <= 9 -> gap_at s = true.
Proof.
  intros Hs. apply (interval_cases (fun z => gap_at z = true) (-2) 12); [|lia].
  cbv [map seq].
  repeat (apply Forall_cons; [vm_compute; reflexivity|]). apply Forall_nil.
Qed.

Lemma falls_table (s1 s2 : Z) :
  -2 <= s1 -> s1 <= s2 -> s2 <= 1 -> falls_at s1 s2 = true.
Proof.
  intros H1 H12 H2.
  assert (Hall : falls_from s1 = true).
  { apply (interval_cases (fun z => falls_from z = true) (-2) 12); [|lia].
    cbv [map seq].
    repeat (apply Forall_cons; [vm_compute; reflexivity|]). apply Forall_nil. }
  unfold falls_from in Hall. rewrite forallb_forall in Hall.
  specialize (Hall s2).
  replace ((s1 <=? s2) && (s2 <=? 1)) with true in Hall.
  - apply Hall, in_map_iff. exists (Z.to_nat (s2 + 2)). split; [lia|].
    apply in_seq. lia.
  - symmetry. apply andb_true_iff. split; apply Z.leb_le; lia.
Qed.

(** X1. A URL on which no rule fires scores 0 and is answered as
    legitimate: risk level BAJO, confidence 0.7, probability of malice
    0.3, probability of legitimacy 0.7. *)
Theorem predict_no_rule_fires (lower : str -> str) (u : str) :
  rule1 lower u = false -> rule2 lower u = false -> rule3 u = false ->
  rule4 u = false -> rule5 u = false -> rule6 u = false ->
  rule7 u = false ->
  exists c,
    predict lower u = Ok c /\
    risk_score c = 0 /\
    is_malicious c = false /\
    prediction c = LEGITIMA /\
    risk_level c = BAJO /\
    confidence c = 0.7%float /\
    probability_malicious c = 0.3%float /\
    probability_legitimate c = 0.7%float.
Proof.
  intros H1 H2 H3 H4 H5 H6 H7.
  assert (Hscore : predict_score lower u = 0).
  { rewrite score_as_sum, H1, H2, H3, H4, H5, H6, H7. reflexivity. }
  destruct (predict_total lower u) as (raw & Hraw).
  destruct (predict_eq lower u raw Hraw)
    as (c & Hc & _ & Hs & Hm & Hcf & Hpm & Hpl & Hlv).
  destruct (predict_labels lower u c Hc) as (Hp & _).
  rewrite Hscore in *. vm_compute in Hraw. injection Hraw as <-.
  change (0 >? 1) with false in Hm. rewrite Hm in *.
  exists c. split_all; assumption.
Qed.

Lemma predict_no_rule_fires_witness :
  exists c,
    predict lower_ascii clean_url = Ok c /\
    risk_score c = 0 /\
    is_malicious c = false /\
    prediction c = LEGITIMA /\
    risk_level c = BAJO /\
    confidence c = 0.7%float /\
    probability_malicious c = 0.3%float /\
    probability_legitimate c = 0.7%float.
Proof.
  apply (predict_no_rule_fires lower_ascii clean_url); reflexivity.
Defined.

(** X2. The labels of an answer agree with each other: the prediction
    is MALICIOSA exactly when the URL is flagged malicious, which is
    exactly when the risk level is MEDIO or ALTO and exactly when the
    recommendation is the warning; a URL answered LEGITIMA has risk
    level BAJO. *)
Theorem predict_labels_agree (lower : str -> str) (u : str) :
  exists c,
    predict lower u = Ok c /\
    (prediction c = MALICIOSA <-> is_malicious c = true) /\
    (prediction c = LEGITIMA <-> risk_level c = BAJO) /\
    (is_malicious c = true <-> risk_level c = MEDIO \/ risk_level c = ALTO) /\
    (recommendation c = recommendation_malicious <-> is_malicious c = true).
Proof.
  destruct (predict_total lower u) as (raw & Hraw).
  destruct (predict_eq lower u raw Hraw)
    as (c & Hc & _ & Hs & Hm & _ & _ & _ & Hlv).
  destruct (predict_labels lower u c Hc) as (Hp & Hr & _).
  destruct risk_levels_distinct as (Ham & Hab & Hmb).
  destruct labels_distinct as (Hml & Hrr).
  exists c. split; [exact Hc|]. rewrite Hp, Hr, Hlv, Hm.
  destruct (Z.gtb_spec (predict_score lower u) 3);
    destruct (Z.gtb_spec (predict_score lower u) 1); try lia;
    split_all; split; intros Hgoal;
    solve [reflexivity | congruence | now left | now right
          | destruct Hgoal; congruence].
Qed.

(** X3. The probability of malice is never between 0.4 and 0.8: it is
    at least 0.8 (and the probability of legitimacy at most 0.2) when the
    URL is flagged malicious, and at most 0.4 (legitimacy at least 0.6)
    when it is not. *)
Theorem probability_gap (lower : str -> str) (u : str) :
  exists c,
    predict lower u = Ok c /\
    if is_malicious c
    then (0.8 <=? probability_malicious c)%float = true /\
         (probability_legitimate c <=? 0.2)%float = true
    else (probability_malicious c <=? 0.4)%float = true /\
         (0.6 <=? probability_legitimate c)%float = true.
Proof.
  destruct (predict_probabilities lower u) as (c & Hc & _ & Hm & Hp).
  pose proof (gap_table _ (predict_score_range lower u)) as Hg.
  unfold gap_at in Hg. rewrite Hp, <- Hm in Hg.
  exists c. split; [exact Hc|].
  destruct (is_malicious c); apply andb_true_iff in Hg; exact Hg.
Qed.

(** X4. Among URLs that are not flagged malicious, a higher score gives
    a lower probability of malice, not a higher one. *)
Theorem probability_falls_below_threshold
  (lower : str -> str) (u1 u2 : str) (c1 c2 : Classification) :
  predict lower u1 = Ok c1 ->
  predict lower u2 = Ok c2 ->
  risk_score c1 <= risk_score c2 ->
  is_malicious c2 = false ->
  (probability_malicious c2 <=? probability_malicious c1)%float = true.
Proof.
  intros Hc1 Hc2 Hle Hm2.
  destruct (predict_probabilities lower u1) as (c1' & Hc1' & Hs1 & _ & Hp1).
  destruct (predict_probabilities lower u2) as (c2' & Hc2' & Hs2 & Hmal & Hp2).
  rewrite Hc1 in Hc1'. injection Hc1' as <-.
  rewrite Hc2 in Hc2'. injection Hc2' as <-.
  pose proof (predict_score_range lower u1) as Hr1.
  rewrite Hm2 in Hmal. symmetry in Hmal.
  assert (Hs2le : predict_score lower u2 <= 1).
  { destruct (Z.gtb_spec (predict_score lower u2) 1); [discriminate | lia]. }
  pose proof (falls_table (predict_score lower u1) (predict_score lower u2))
    as Hf.
  unfold falls_at in Hf. rewrite Hp1, Hp2 in Hf. apply Hf; lia.
Qed.

Lemma probability_falls_below_threshold_witness :
  exists c1 c2,
    predict lower_ascii trusted_url = Ok c1 /\
    predict lower_ascii plain_http_url = Ok c2 /\
    risk_score c1 = -2 /\ risk_score c2 = 1 /\
    probability_malicious c1 = 0.4%float /\
    probability_malicious c2 = 0.25%float /\
    (probability_malicious c2 <=? probability_malicious c1)%float = true.
Proof.
  do 2 eexists. split; [vm_compute; reflexivity|].
  split; [vm_compute; reflexivity|].
  do 4 (split; [vm_compute; reflexivity|]).
  apply (probability_falls_below_threshold lower_ascii
           trusted_url plain_http_url).
  - vm_compute. reflexivity.
  - vm_compute. reflexivity.
  - vm_compute. discriminate.
  - reflexivity.
Defined.

(** X5. A URL over https that names a trusted domain, has at most 3
    dots and 5 slashes, no [@] and at most 100 characters is answered as
    legitimate whether or not it carries a suspicious word. *)
Theorem trusted_domain_outweighs_suspicious_word
  (lower : str -> str) (u : str) :
  rule2 lower u = true ->
  startswith u (lit "https://") = true ->
  rule4 u = false -> rule5 u = false -> rule6 u = false ->
  rule7 u = false ->
  exists c,
    predict lower u = Ok c /\
    risk_score c = (if rule1 lower u then 1 else -2) /\
    is_malicious c = false /\
    prediction c = LEGITIMA /\
    risk_level c = BAJO.
Proof.
  intros H2 H3 H4 H5 H6 H7.
  assert (Hscore : predict_score lower u = if rule1 lower u then 1 else -2).
  { rewrite score_as_sum, H2, H4, H5, H6, H7. unfold rule3. rewrite H3.
    destruct (rule1 lower u); reflexivity. }
  destruct (predict_total lower u) as (raw & Hraw).
  destruct (predict_eq lower u raw Hraw)
    as (c & Hc & _ & Hs & Hm & _ & _ & _ & Hlv).
  destruct (predict_labels lower u c Hc) as (Hp & _).
  assert (Hm' : is_malicious c = false).
  { rewrite Hm, Hscore. destruct (rule1 lower u); reflexivity. }
  exists c. rewrite Hp, Hm', Hlv, Hs, Hscore.
  split_all; try assumption; try reflexivity;
    destruct (rule1 lower u); reflexivity.
Qed.

Lemma trusted_domain_outweighs_suspicious_word_witness :
  rule1 lower_ascii trusted_https_phishing_url = true /\
  exists c,
    predict lower_ascii trusted_https_phishing_url = Ok c /\
    risk_score c =
      (if rule1 lower_ascii trusted_https_phishing_url then 1 else -2) /\
    is_malicious c = false /\
    prediction c = LEGITIMA /\
    risk_level c = BAJO.
Proof.
  split; [reflexivity|].
  apply (trusted_domain_outweighs_suspicious_word
           lower_ascii trusted_https_phishing_url); reflexivity.
Defined.

(** X6. The handler of [POST /api/predict] answers every URL string
    with the record of [model.predict]; its [except] branch, the HTTP
    400, is never taken. *)
Theorem api_predict_never_400 (lower : str -> str) (u : str) :
  exists c,
    api_predict lower u = Ok c /\ predict lower u = Ok c /\ url c = u.
Proof.
  destruct (predict_total lower u) as (raw & Hraw).
  destruct (predict_eq lower u raw Hraw) as (c & Hc & Hu & _).
  exists c. unfold api_predict. rewrite Hc. split_all; reflexivity || exact Hu.
Qed.

(** ** The model state *)

Lemma update_metrics_known (k : str) :
  In k kernels ->
  exists a p r f,
    dict_get k base_metrics = Some (mk_metrics a p r f) /\
    forall w,
      get_metrics (snd (update_metrics k w)) =
        mk_metrics (clamp_metric (a + uniform_draws w (0 + drawn w)%nat))
                   (clamp_metric (p + uniform_draws w (1 + drawn w)%nat))
                   (clamp_metric (r + uniform_draws w (2 + drawn w)%nat))
                   (clamp_metric (f + uniform_draws w (3 + drawn w)%nat)) /\
      drawn (snd (update_metrics k w)) = (4 + drawn w)%nat /\
      uniform_draws (snd (update_metrics k w)) = uniform_draws w.
Proof.
  intros Hk. destruct (dict_get_known k Hk) as (a & p & r & f & Hget).
  exists a, p, r, f. split; [exact Hget|]. intros w.
  unfold update_metrics. rewrite Hget. split_all; reflexivity.
Qed.

Lemma update_metrics_unknown (k : str) (w : World) :
  dict_get k base_metrics = None -> update_metrics k w = (get_metrics w, w).
Proof. intros H. unfold update_metrics. rewrite H. reflexivity. Qed.

Lemma dict_get_known_iff (k : str) :
  In k kernels <-> dict_get k base_metrics <> None.
Proof.
  split.
  - intros Hk. destruct (dict_get_known k Hk) as (a & p & r & f & ->).
    discriminate.
  - intros H. destruct (dict_get k base_metrics) as [m|] eqn:E; [|congruence].
    apply dict_get_in_keys in E. now rewrite base_metrics_keys in E.
Qed.

Lemma update_metrics_keeps (k : str) (w : World) :
  let w' := snd (update_metrics k w) in
  is_trained (model w') = is_trained (model w) /\
  n_features (model w') = n_features (model w).
Proof.
  unfold update_metrics. cbn [snd].
  destruct (dict_get k base_metrics) as [base|]; [|split; reflexivity].
  pose proof (jittered_frame base w) as H. cbv zeta in H.
  destruct (jittered base w) as [m w1].
  cbn [snd set_metrics set_model model is_trained n_features] in *.
  destruct H as (Hm & _). rewrite Hm. split; reflexivity.
Qed.

Lemma jittered_time_sleep (items : Metrics) (secs : float) (w : World) :
  jittered items (time_sleep secs w)
  = (fst (jittered items w), time_sleep secs (snd (jittered items w))).
Proof.
  revert w. induction items as [|[k v] rest IH]; intros w; [reflexivity|].
  cbn [jittered].
  unfold random_uniform.
  change (random_random (time_sleep secs w))
    with (random_value (random_draws w (drawn w)),
          time_sleep secs (snd (random_random w))).
  change (random_random w)
    with (random_value (random_draws w (drawn w)), snd (random_random w)).
  cbv iota beta. rewrite IH. cbn [fst snd].
  destruct (jittered rest (snd (random_random w))) as [rest' w2]. reflexivity.
Qed.

Lemma update_metrics_time_sleep (k : str) (secs : float) (w : World) :
  fst (update_metrics k (time_sleep secs w)) = fst (update_metrics k w) /\
  drawn (snd (update_metrics k (time_sleep secs w)))
  = drawn (snd (update_metrics k w)).
Proof.
  unfold update_metrics. cbn [fst snd].
  destruct (dict_get k base_metrics) as [base|]; [|split; reflexivity].
  rewrite jittered_time_sleep.
  destruct (jittered base w) as [m w1]. split; reflexivity.
Qed.

Lemma update_metrics_environment (k : str) (w : World) :
  let w' := snd (update_metrics k w) in
  pkl_damaged w' = pkl_damaged w /\ pkl_failure w' = pkl_failure w.
Proof.
  unfold update_metrics. cbn [snd].
  destruct (dict_get k base_metrics) as [base|]; [|split; reflexivity].
  pose proof (jittered_environment base w) as H. cbv zeta in H.
  destruct (jittered base w) as [m w1].
  cbn [snd set_metrics set_model pkl_damaged pkl_failure] in *. exact H.
Qed.

(** [train_model] by cases on whether the file can be written and on how
    the write fails: the model is updated in all of them. *)
Lemma train_model_unfold (k : str) (C : float) (w : World) :
  let w1 := snd (update_metrics k (time_sleep 1.5 w)) in
  let w2 := set_kernel k w1 in
  train_model k C w =
    if pkl_writable w then
      (Ok {| message := lit "Modelo entrenado exitosamente";
             resp_kernel := k; resp_C := C; resp_metrics := get_metrics w1 |},
       set_pkl (Some {| saved_kernel := k; saved_C := C;
                        saved_metrics := get_metrics w1;
                        saved_timestamp := clock w2 |}) false w2)
    else
      match pkl_failure w with
      | DumpOpenFails => (Raise (HTTPException 500), w2)
      | DumpWriteFails => (Raise (HTTPException 500), set_pkl None true w2)
      end.
Proof.
  pose proof (update_metrics_frame k (time_sleep 1.5 w)) as Hf.
  pose proof (update_metrics_environment k (time_sleep 1.5 w)) as He.
  pose proof (update_metrics_result k (time_sleep 1.5 w)) as Hr.
  cbv zeta in *. unfold train_model.
  destruct (update_metrics k (time_sleep 1.5 w)) as [m w1].
  cbn [fst snd] in *. destruct Hf as (_ & _ & _ & Hw).
  destruct He as (_ & Hfail). subst m.
  unfold joblib_dump.
  cbn [pkl_writable pkl_failure set_kernel set_model]. rewrite Hw, Hfail.
  cbn [pkl_writable pkl_failure time_sleep].
  destruct (pkl_writable w); [reflexivity|].
  destruct (pkl_failure w); reflexivity.
Qed.

Lemma restart_eq (w : World) :
  restart w =
    match pkl w with
    | Some d => set_metrics (saved_metrics d) (set_model init w)
    | None => set_model init w
    end.
Proof.
  unfold restart, startup_event, load_model, joblib_load.
  cbn [pkl pkl_damaged set_model].
  destruct (pkl w); [reflexivity|]. destruct (pkl_damaged w); reflexivity.
Qed.

(** X7. A call of [train_model] whose write fails answers HTTP 500,
    but the model in memory has changed all the same: it carries the new
    kernel name and the metrics [update_metrics] computed.  The file is
    as it was when it could not be opened; when the write failed once the
    file was open, the file is damaged, what had been saved is lost, and
    a restart gives the model [SVMModel()] builds. *)
Theorem train_model_failure_still_updates (k : str) (C : float) (w : World) :
  pkl_writable w = false ->
  exists w',
    train_model k C w = (Raise (HTTPException 500), w') /\
    kernel (model w') = k /\
    get_metrics w' = fst (update_metrics k w) /\
    drawn w' = drawn (snd (update_metrics k w)) /\
    info_kernel (get_model_info w') = k /\
    info_metrics (get_model_info w') = fst (update_metrics k w) /\
    match pkl_failure w with
    | DumpOpenFails => pkl w' = pkl w /\ pkl_damaged w' = pkl_damaged w
    | DumpWriteFails =>
        pkl w' = None /\ pkl_damaged w' = true /\ model (restart w') = init
    end.
Proof.
  intros Hw. pose proof (train_model_unfold k C w) as Ht. cbv zeta in Ht.
  rewrite Hw in Ht.
  pose proof (update_metrics_frame k (time_sleep 1.5 w)) as Hf.
  cbv zeta in Hf. destruct Hf as (_ & _ & Hp & _).
  destruct (update_metrics_environment k (time_sleep 1.5 w)) as (Hdam & _).
  destruct (update_metrics_time_sleep k 1.5 w) as (Hm & Hd).
  rewrite update_metrics_result in Hm.
  destruct (pkl_failure w); (eexists; split; [exact Ht|]);
    try rewrite restart_eq;
    cbn [set_kernel set_model set_pkl model kernel pkl pkl_damaged drawn
         get_metrics metrics get_model_info info_kernel info_metrics];
    split_all; try reflexivity; assumption.
Qed.

Lemma train_model_failure_still_updates_witness :
  exists w',
    train_model (lit "linear") 1 read_only_world
    = (Raise (HTTPException 500), w') /\
    kernel (model w') = lit "linear" /\
    pkl w' = None /\ pkl_damaged w' = true /\ model (restart w') = init.
Proof.
  destruct (train_model_failure_still_updates (lit "linear") 1
              read_only_world eq_refl)
    as (w' & Ht & Hk & _ & _ & _ & _ & Hfile).
  exists w'. split_all; try assumption; apply Hfile.
Defined.

(** X8. What a successful [train_model] saved comes back after a
    restart: the metrics of the new process are the ones the call
    returned.  The kernel name does not come back: before the restart
    the model information names the trained kernel, after it the name is
    rbf again, whatever was trained. *)
Theorem train_then_restart
  (k : str) (C : float) (w : World) (resp : TrainResponse) (w' : World) :
  train_model k C w = (Ok resp, w') ->
  info_kernel (get_model_info w') = k /\
  info_metrics (get_model_info w') = resp_metrics resp /\
  get_metrics (restart w') = resp_metrics resp /\
  info_metrics (get_model_info (restart w')) = resp_metrics resp /\
  info_kernel (get_model_info (restart w')) = lit "rbf" /\
  pkl (restart w') = pkl w'.
Proof.
  intros Ht. rewrite train_model_unfold in Ht. cbv zeta in Ht.
  destruct (pkl_writable w); [|destruct (pkl_failure w); discriminate].
  injection Ht as <- <-. rewrite restart_eq.
  cbn [set_pkl set_kernel set_metrics set_model pkl model kernel metrics
       get_model_info get_metrics info_kernel info_metrics resp_metrics
       saved_metrics init].
  split_all; reflexivity.
Qed.

Lemma train_then_restart_witness :
  exists resp w',
    train_model (lit "sigmoid") 1 demo_world = (Ok resp, w') /\
    info_kernel (get_model_info w') = lit "sigmoid" /\
    get_metrics (restart w') = resp_metrics resp /\
    info_kernel (get_model_info (restart w')) = lit "rbf".
Proof.
  pose proof (train_model_unfold (lit "sigmoid") 1 demo_world) as Ht.
  cbv zeta in Ht. change (pkl_writable demo_world) with true in Ht.
  cbv iota in Ht. do 2 eexists. split; [exact Ht|].
  destruct (train_then_restart _ _ _ _ _ Ht) as (Hk & _ & Hm & _ & Hr & _).
  split_all; assumption.
Defined.

(** X9. A restart never fails and depends on the file alone: without a
    file the model is the one [SVMModel()] builds, with a file only the
    metrics differ from it, and restarting twice gives the same process
    as restarting once. *)
Theorem restart_from_file (w : World) :
  (pkl w = None -> model (restart w) = init) /\
  (forall d, pkl w = Some d ->
     get_metrics (restart w) = saved_metrics d /\
     kernel (model (restart w)) = kernel init /\
     is_trained (model (restart w)) = true /\
     n_features (model (restart w)) = 20) /\
  pkl (restart w) = pkl w /\
  restart (restart w) = restart w.
Proof.
  split_all.
  - intros Hp. rewrite restart_eq, Hp. reflexivity.
  - intros d Hp. rewrite restart_eq, Hp. split_all; reflexivity.
  - rewrite restart_eq.
    destruct (pkl w) as [d|] eqn:Hp; cbn [pkl set_metrics set_model];
      congruence.
  - rewrite (restart_eq (restart w)). rewrite restart_eq.
    destruct (pkl w) as [d|] eqn:Hp; cbn [pkl set_metrics set_model].
    + rewrite Hp. reflexivity.
    + rewrite Hp. reflexivity.
Qed.

Lemma restart_from_file_witness :
  model (restart demo_world) = init /\
  restart (restart demo_world) = restart demo_world.
Proof.
  destruct (restart_from_file demo_world) as (Hnone & _ & _ & Hidem).
  split; [apply Hnone; reflexivity | exact Hidem].
Defined.

(** X10. Retraining does not accumulate jitter: after two calls of
    [update_metrics] with known kernels, the metrics are the baseline of
    the second kernel plus the fifth to eighth draws, clamped; neither
    the first kernel nor the metrics of before enter. *)
Theorem update_metrics_twice (k1 k2 : str) (w : World) :
  In k1 kernels -> In k2 kernels ->
  exists a p r f,
    dict_get k2 base_metrics = Some (mk_metrics a p r f) /\
    fst (update_metrics k2 (snd (update_metrics k1 w))) =
      mk_metrics (clamp_metric (a + uniform_draws w (4 + drawn w)%nat))
                 (clamp_metric (p + uniform_draws w (5 + drawn w)%nat))
                 (clamp_metric (r + uniform_draws w (6 + drawn w)%nat))
                 (clamp_metric (f + uniform_draws w (7 + drawn w)%nat)).
Proof.
  intros H1 H2.
  destruct (update_metrics_known k1 H1) as (a1 & p1 & r1 & f1 & _ & Hfirst).
  destruct (update_metrics_known k2 H2) as (a & p & r & f & Hget & Hsecond).
  exists a, p, r, f. split; [exact Hget|].
  destruct (Hfirst w) as (_ & Hd & Hu).
  destruct (Hsecond (snd (update_metrics k1 w))) as (Hm & _).
  rewrite update_metrics_result, Hm, Hd, Hu. reflexivity.
Qed.

Lemma update_metrics_twice_witness :
  exists a p r f,
    dict_get (lit "poly") base_metrics = Some (mk_metrics a p r f) /\
    fst (update_metrics (lit "poly")
           (snd (update_metrics (lit "sigmoid") demo_world))) =
      mk_metrics
        (clamp_metric (a + uniform_draws demo_world (4 + drawn demo_world)%nat))
        (clamp_metric (p + uniform_draws demo_world (5 + drawn demo_world)%nat))
        (clamp_metric (r + uniform_draws demo_world (6 + drawn demo_world)%nat))
        (clamp_metric (f + uniform_draws demo_world (7 + drawn demo_world)%nat)).
Proof.
  apply (update_metrics_twice (lit "sigmoid") (lit "poly") demo_world);
    unfold kernels; simpl; tauto.
Defined.

Lemma init_metrics_ok : metrics_ok (metrics init).
Proof.
  split; [reflexivity|]. unfold init, mk_metrics. cbn [metrics].
  repeat (apply Forall_cons; [split; reflexivity|]). apply Forall_nil.
Qed.

Lemma update_metrics_metrics_ok (k : str) (w : World) :
  metrics_ok (get_metrics w) ->
  metrics_ok (get_metrics (snd (update_metrics k w))).
Proof.
  intros Hok. destruct (dict_get k base_metrics) as [base|] eqn:E.
  - assert (Hk : In k kernels) by (apply dict_get_known_iff; congruence).
    destruct (update_metrics_known k Hk) as (a & p & r & f & _ & Hw).
    destruct (Hw w) as (-> & _). split; [reflexivity|].
    unfold mk_metrics.
    repeat (apply Forall_cons; [apply clamp_metric_range|]). apply Forall_nil.
  - rewrite (update_metrics_unknown k w E). exact Hok.
Qed.

Lemma step_keeps_state_ok (w w' : World) :
  step w w' -> state_ok w -> state_ok w'.
Proof.
  intros Hstep (Ht & Hn & Hm & Hp). destruct Hstep as [k C w|w|w w' Hm' Hp'].
  - rewrite train_model_unfold. cbv zeta.
    pose proof (update_metrics_metrics_ok k (time_sleep 1.5 w) Hm) as Hm1.
    destruct (update_metrics_keeps k (time_sleep 1.5 w)) as (Ht1 & Hn1).
    destruct (update_metrics_frame k (time_sleep 1.5 w)) as (_ & _ & Hp1 & _).
    cbn [time_sleep model pkl] in Ht1, Hn1, Hp1.
    destruct (pkl_writable w); [|destruct (pkl_failure w)]; unfold state_ok;
      cbn [snd set_kernel set_model set_pkl model pkl is_trained n_features
           metrics saved_metrics];
      rewrite ?Ht1, ?Hn1, ?Hp1; split_all; first [assumption | exact I].
  - rewrite restart_eq. destruct (pkl w) as [d|] eqn:E; unfold state_ok;
      cbn [set_metrics set_model model pkl is_trained n_features metrics init];
      rewrite E; split_all; try reflexivity; try assumption.
    apply init_metrics_ok.
  - unfold state_ok. rewrite Hm', Hp'. split_all; assumption.
Qed.

(** X11. Whatever sequence of [train_model] calls (with any kernel
    name, succeeding or failing), restarts and changes of the
    environment a process goes through, starting from a model with the
    four metrics within [[0.7, 0.99]] and a file that is absent or holds
    such metrics: the model stays flagged as trained with 20 features,
    and the metrics in memory and on file keep the four keys, each value
    within [[0.7, 0.99]]. *)
Theorem reachable_state_ok (w0 w : World) :
  state_ok w0 -> reachable w0 w -> state_ok w.
Proof.
  intros H0 Hreach. induction Hreach as [|w w' _ IH Hstep].
  - exact H0.
  - exact (step_keeps_state_ok w w' Hstep IH).
Qed.

Lemma reachable_state_ok_witness :
  state_ok
    (restart (snd (train_model unknown_kernel 1
                     (snd (train_model (lit "poly") 2 demo_world))))).
Proof.
  apply (reachable_state_ok demo_world).
  - unfold state_ok. split_all; try reflexivity. apply init_metrics_ok.
  - eapply reach_step; [eapply reach_step; [eapply reach_step|]|].
    + apply reach_start.
    + apply (step_train (lit "poly") 2).
    + apply (step_train unknown_kernel 1).
    + apply step_restart.
Defined.

Lemma metrics_ok_shape (m : Metrics) :
  metrics_ok m ->
  exists a p r f,
    m = mk_metrics a p r f /\
    in_metric_range a /\ in_metric_range p /\
    in_metric_range r /\ in_metric_range f.
Proof.
  intros (Hk & Hr).
  destruct m as [|[k1 a] [|[k2 p] [|[k3 r] [|[k4 f] [|x m]]]]];
    try discriminate Hk.
  injection Hk as -> -> -> ->.
  exists a, p, r, f. split; [reflexivity|].
  repeat match goal with H : Forall _ (_ :: _) |- _ => inversion_clear H end.
  split_all; assumption.
Qed.

(** X12. On metrics that have the four keys the chart never raises
    [KeyError]: its bars are the four metrics times 100, in the order
    accuracy, precision, recall, f1_score.  So the chart and the health
    report are there in every state with [state_ok], and [/health]
    reports the model as loaded. *)
Theorem chart_values_of_ok_state (w : World) :
  state_ok w ->
  exists a p r f,
    get_metrics w = mk_metrics a p r f /\
    chart_values essential_metrics (get_metrics w)
    = Found [(a * 100)%float; (p * 100)%float; (r * 100)%float;
             (f * 100)%float] /\
    health_model_loaded (health w) = true /\
    health_metrics (health w) = mk_metrics a p r f.
Proof.
  intros (Ht & _ & Hm & _).
  destruct (metrics_ok_shape _ Hm) as (a & p & r & f & Hshape & _).
  exists a, p, r, f. unfold get_metrics, health. cbn [health_model_loaded
    health_metrics]. unfold get_metrics. rewrite Hshape.
  split_all; try reflexivity. exact Ht.
Qed.

Lemma chart_values_of_ok_state_witness :
  exists a p r f,
    get_metrics demo_world = mk_metrics a p r f /\
    chart_values essential_metrics (get_metrics demo_world)
    = Found [(a * 100)%float; (p * 100)%float; (r * 100)%float;
             (f * 100)%float] /\
    health_model_loaded (health demo_world) = true /\
    health_metrics (health demo_world) = mk_metrics a p r f.
Proof.
  apply (chart_values_of_ok_state demo_world).
  unfold state_ok. split_all; try reflexivity. apply init_metrics_ok.
Defined.

(** X13. The chart raises [KeyError] exactly when one of its four keys
    is missing from the metrics, and the key it reports is a missing
    one; otherwise it has one bar per key. *)
Theorem chart_values_key_error (labels : list str) (m : Metrics) :
  (forall k, chart_values labels m = KeyError k ->
     In k labels /\ dict_get k m = None) /\
  (forall vs, chart_values labels m = Found vs ->
     List.length vs = List.length labels /\
     forall k, In k labels -> dict_get k m <> None) /\
  ((exists k, In k labels /\ dict_get k m = None) ->
   exists k, chart_values labels m = KeyError k).
Proof.
  induction labels as [|l labels (IHerr & IHok & IHmiss)].
  - split_all.
    + intros k H. discriminate H.
    + intros vs H. injection H as <-. split; [reflexivity|]. intros k [].
    + intros (k & [] & _).
  - cbn [chart_values]. destruct (dict_get l m) as [v|] eqn:El.
    + destruct (chart_values labels m) as [vs'|k'] eqn:Erest.
      * split_all.
        -- intros k H. discriminate H.
        -- intros vs H. injection H as <-.
           destruct (IHok vs' eq_refl) as (Hlen & Hall).
           split; [simpl; now rewrite Hlen|].
           intros k [<-|Hk]; [congruence | now apply Hall].
        -- intros (k & [<-|Hk] & Hnone); [congruence|].
           destruct IHmiss as (k0 & Hk0); [now exists k | discriminate Hk0].
      * split_all.
        -- intros k H. injection H as <-.
           destruct (IHerr k' eq_refl) as (Hin & Hnone).
           split; [now right | exact Hnone].
        -- intros vs H. discriminate H.
        -- intros _. now exists k'.
    + split_all.
      * intros k H. injection H as <-. split; [now left | exact El].
      * intros vs H. discriminate H.
      * intros _. now exists l.
Qed.

Lemma chart_values_key_error_witness :
  exists k,
    chart_values essential_metrics [(lit "accuracy", 0.9%float)] = KeyError k.
Proof.
  apply (chart_values_key_error essential_metrics [(lit "accuracy", 0.9%float)]).
  exists (lit "recall"). split; [simpl; tauto | reflexivity].
Defined.

(** ** [upload_dataset] *)

Lemma endswith_iff (u suffix : str) :
  endswith u suffix = true <-> exists stem, u = stem ++ suffix.
Proof.
  unfold endswith. rewrite startswith_iff. split.
  - intros (t & Ht). exists (rev t).
    rewrite <- (rev_involutive u), Ht, rev_app_distr, rev_involutive.
    reflexivity.
  - intros (stem & ->). exists (rev stem). apply rev_app_distr.
Qed.

(** X14. [upload_dataset] never answers HTTP 400: the 400 it raises for
    a file name that does not end in [.csv] is caught by its own
    [except Exception] and leaves as HTTP 500, like a failed write.  The
    file name check comes before the file is opened and leaves
    [dataset.csv] as it was; so does a write that cannot open the file.
    A write that fails once the file is open has replaced what the file
    held by the bytes written so far. *)
Theorem upload_dataset_errors_are_500
  (filename : str) (content : list Byte.byte) (fs : Files) :
  (forall e, fst (upload_dataset filename content fs) = Raise e ->
     e = HTTPException 500)
  /\ ((~ exists stem, filename = stem ++ lit ".csv") ->
      upload_dataset filename content fs = (Raise (HTTPException 500), fs))
  /\ ((exists stem, filename = stem ++ lit ".csv") ->
      dataset_writable fs = false ->
      fst (upload_dataset filename content fs) = Raise (HTTPException 500) /\
      dataset (snd (upload_dataset filename content fs)) =
        match dataset_failure fs with
        | OpenFails => dataset fs
        | WriteFails written => Some (firstn written content)
        end).
Proof.
  unfold upload_dataset.
  destruct (endswith filename (lit ".csv")) eqn:Hcsv; cbn [negb].
  - split_all.
    + destruct (dataset_writable fs); [discriminate|].
      destruct (dataset_failure fs); intros e He; injection He as <-;
        reflexivity.
    + intros Hno. exfalso. apply Hno. now apply endswith_iff.
    + intros _ Hw. rewrite Hw.
      destruct (dataset_failure fs); split; reflexivity.
  - split_all.
    + intros e He. injection He as <-. reflexivity.
    + reflexivity.
    + intros Hstem. apply endswith_iff in Hstem. congruence.
Qed.

Lemma upload_dataset_errors_are_500_witness :
  upload_dataset (lit "urls.txt") [Byte.x61; Byte.x0a]
    {| dataset := Some [Byte.x62]; dataset_writable := true;
       dataset_failure := OpenFails |}
  = (Raise (HTTPException 500),
     {| dataset := Some [Byte.x62]; dataset_writable := true;
        dataset_failure := OpenFails |})
  /\ dataset (snd (upload_dataset (lit "urls" ++ lit ".csv")
                     [Byte.x61; Byte.x0a]
                     {| dataset := Some [Byte.x62]; dataset_writable := false;
                        dataset_failure := WriteFails 1 |}))
     = Some [Byte.x61].
Proof.
  split.
  - destruct (upload_dataset_errors_are_500 (lit "urls.txt")
                [Byte.x61; Byte.x0a]
                {| dataset := Some [Byte.x62]; dataset_writable := true;
                   dataset_failure := OpenFails |})
      as (_ & Hname & _).
    apply Hname. intros (stem & Hstem).
    apply (f_equal (fun u => endswith u (lit ".csv"))) in Hstem.
    rewrite (proj2 (endswith_iff (stem ++ lit ".csv") (lit ".csv"))) in Hstem
      by (now exists stem).
    discriminate Hstem.
  - destruct (upload_dataset_errors_are_500 (lit "urls" ++ lit ".csv")
                [Byte.x61; Byte.x0a]
                {| dataset := Some [Byte.x62]; dataset_writable := false;
                   dataset_failure := WriteFails 1 |})
      as (_ & _ & Hwrite).
    apply Hwrite; [now exists (lit "urls") | reflexivity].
Defined.

(** X15. An upload whose file name ends in [.csv], when the file can be
    written, replaces the content of [dataset.csv] by the bytes sent,
    whatever it held, and answers with the file name and the number of
    bytes; of two uploads in a row the second one stays. *)
Theorem upload_dataset_stores
  (stem : str) (content : list Byte.byte) (fs : Files) :
  dataset_writable fs = true ->
  exists resp fs',
    upload_dataset (stem ++ lit ".csv") content fs = (Ok resp, fs') /\
    dataset fs' = Some content /\
    dataset_writable fs' = true /\
    upload_filename resp = stem ++ lit ".csv" /\
    upload_size resp = Z.of_nat (List.length content) /\
    forall stem2 content2,
      dataset (snd (upload_dataset (stem2 ++ lit ".csv") content2 fs'))
      = Some content2.
Proof.
  intros Hw.
  assert (Hcsv : forall s, endswith (s ++ lit ".csv") (lit ".csv") = true)
    by (intros s; apply endswith_iff; now exists s).
  unfold upload_dataset. rewrite Hcsv, Hw. cbn [negb].
  do 2 eexists. split; [reflexivity|]. cbn [dataset dataset_writable
    upload_filename upload_size].
  split_all; try reflexivity; try assumption.
  intros stem2 content2. rewrite Hcsv. reflexivity.
Qed.

Lemma upload_dataset_stores_witness :
  exists resp fs',
    upload_dataset (lit "urls" ++ lit ".csv") [Byte.x61; Byte.x0a]
      {| dataset := Some [Byte.x62]; dataset_writable := true;
         dataset_failure := OpenFails |}
    = (Ok resp, fs') /\
    dataset fs' = Some [Byte.x61; Byte.x0a] /\
    upload_size resp = 2.
Proof.
  destruct (upload_dataset_stores (lit "urls") [Byte.x61; Byte.x0a]
              {| dataset := Some [Byte.x62]; dataset_writable := true;
                 dataset_failure := OpenFails |}
              eq_refl)
    as (resp & fs' & Hup & Hd & _ & _ & Hsize & _).
  exists resp, fs'. split_all; assumption.
Defined.
